(** * Plugin metadata utilities of [ape.plugins._utils]

    A shallow embedding of the plugin classification and of the
    package-manager command builders, with the properties stated about them.

    Python [str] values are modelled by [string]; a character is a code point
    below 256.  Python [int]s that are version components are modelled by [N]
    (they are parsed from digit sequences and are never negative).  A raised
    exception is a value of [exn] carried by [result]; logging is the list of
    records a call emits.  A [PluginMetadata] is a record of its three
    fields: the module never assigns to a field after validation, so a
    [cached_property] is the function of the fields it caches.  What the
    module imports from outside ([packaging], [urllib], the installed
    distributions, the registry client, the terminal) is gathered in
    [Externals], over which every definition is parametric.  An argument
    annotated [Iterable] may be a one-shot iterator, which a membership test
    or [list(...)] consumes: such an argument is carried as a state.  The
    command builders are given a second time on a store of list objects,
    where sharing and change in place can be told. *)

From Stdlib Require Import Ascii.
From stdpp Require Import base option list strings pretty gmap.

Local Open Scope stdpp_scope.

(** ** Exceptions *)

Inductive exn : Type :=
  | ValueError (msg : string)
  | IndexError
  | InvalidSpecifier
  | InvalidVersion
  | PluginVersionError (operation reason resolution : string).

Inductive result (A : Type) : Type :=
  | Ok (a : A)
  | Raise (e : exn).
Arguments Ok {A} a.
Arguments Raise {A} e.

Definition rbind {A B} (r : result A) (k : A → result B) : result B :=
  match r with
  | Ok a => k a
  | Raise e => Raise e
  end.

Notation "x ← r ;;; k" := (rbind r (λ x, k))
  (at level 20, r at level 100, k at level 200, right associativity,
   format "x  ←  r  ;;;  '/' k").
Notation "' p ← r ;;; k" := (rbind r (λ p, k))
  (at level 20, p pattern, r at level 100, k at level 200,
   right associativity, format "' p  ←  r  ;;;  '/' k").

(** ** Python string primitives *)

Module PyStr.

(** [c in s] for a one-character [c]. *)
Fixpoint has_char (c : ascii) (s : string) : bool :=
  match s with
  | EmptyString => false
  | String d s' => if decide (d = c) then true else has_char c s'
  end.

(** [all(P(c) for c in s)]. *)
Fixpoint all_chars (P : ascii → bool) (s : string) : bool :=
  match s with
  | EmptyString => true
  | String d s' => P d && all_chars P s'
  end.

(** The rest of [s] after the prefix [p], when [s.startswith(p)]. *)
Fixpoint strip_prefix (p s : string) : option string :=
  match p, s with
  | EmptyString, _ => Some s
  | String _ _, EmptyString => None
  | String a p', String b s' =>
      if decide (a = b) then strip_prefix p' s' else None
  end.

(** [s.startswith(p)]. *)
Definition startswith (s p : string) : bool :=
  bool_decide (is_Some (strip_prefix p s)).

(** [sub in s]. *)
Fixpoint contains (sub s : string) : bool :=
  if startswith s sub then true
  else match s with
       | EmptyString => false
       | String _ s' => contains sub s'
       end.

(** [s.replace(old, new)] for a non-empty [old]: occurrences are replaced
    from left to right and do not overlap.  The recursion is on a bound of
    the length of what is left of [s]. *)
Fixpoint replace_upto (n : nat) (old new s : string) : string :=
  match n with
  | O => s
  | S n' =>
      match strip_prefix old s with
      | Some rest => new +:+ replace_upto n' old new rest
      | None =>
          match s with
          | EmptyString => EmptyString
          | String c s' => String c (replace_upto n' old new s')
          end
      end
  end.

Definition replace (old new s : string) : string :=
  replace_upto (String.length s) old new s.

(** [s.split(sep)] for a non-empty [sep]. *)
Fixpoint split_upto (n : nat) (sep s : string) : list string :=
  match n with
  | O => [s]
  | S n' =>
      match strip_prefix sep s with
      | Some rest => EmptyString :: split_upto n' sep rest
      | None =>
          match s with
          | EmptyString => [EmptyString]
          | String c s' =>
              match split_upto n' sep s' with
              | h :: t => String c h :: t
              | [] => [String c EmptyString]
              end
          end
      end
  end.

Definition split (sep s : string) : list string :=
  split_upto (S (String.length s)) sep s.

(** [sep.join(parts)]. *)
Fixpoint join (sep : string) (parts : list string) : string :=
  match parts with
  | [] => EmptyString
  | [p] => p
  | p :: rest => p +:+ sep +:+ join sep rest
  end.

(** [str.isspace] on code points below 256. *)
Definition isspace (c : ascii) : bool :=
  let n := nat_of_ascii c in
  ((9 <=? n) && (n <=? 13)) || ((28 <=? n) && (n <=? 32))
  || (n =? 133) || (n =? 160).

Fixpoint lstrip (s : string) : string :=
  match s with
  | EmptyString => EmptyString
  | String c s' => if isspace c then lstrip s' else s
  end.

Fixpoint rstrip (s : string) : string :=
  match s with
  | EmptyString => EmptyString
  | String c s' =>
      match rstrip s' with
      | EmptyString => if isspace c then EmptyString else String c EmptyString
      | r => String c r
      end
  end.

(** [s.strip()]. *)
Definition strip (s : string) : string := rstrip (lstrip s).

(** [s.index(c)] for a one-character [c]; [None] stands for the
    [ValueError] of a missing character. *)
Fixpoint index (c : ascii) (s : string) : option nat :=
  match s with
  | EmptyString => None
  | String d s' => if decide (d = c) then Some 0 else S <$> index c s'
  end.

(** The slices [s[:n]] and [s[n:]] for [0 <= n]. *)
Fixpoint take (n : nat) (s : string) : string :=
  match n, s with
  | O, _ => EmptyString
  | S _, EmptyString => EmptyString
  | S n', String c s' => String c (take n' s')
  end.

Fixpoint drop (n : nat) (s : string) : string :=
  match n, s with
  | O, _ => s
  | S _, EmptyString => EmptyString
  | S n', String _ s' => drop n' s'
  end.

(** [str.isnumeric] on code points below 256: the ten digits, the
    superscripts one to three and the three vulgar fractions. *)
Definition isnumeric (c : ascii) : bool :=
  let n := nat_of_ascii c in
  ((48 <=? n) && (n <=? 57)) || (n =? 178) || (n =? 179) || (n =? 185)
  || ((188 <=? n) && (n <=? 190)).

End PyStr.

(** ** Module constants *)

Definition CORE_PLUGINS : list string :=
  [ "ape_accounts"; "ape_cache"; "ape_compile"; "ape_console"; "ape_ethereum";
    "ape_node"; "ape_init"; "ape_networks"; "ape_plugins"; "ape_pm";
    "ape_run"; "ape_test" ].

Definition TRUSTED_PLUGINS : list string :=
  [ "addressbook"; "alchemy"; "arbitrum"; "avalanche"; "aws"; "base"; "blast";
    "blockscout"; "bsc"; "cairo"; "chainstack"; "ens"; "etherscan"; "fantom";
    "farcaster"; "flashbots"; "foundry"; "frame"; "ganache"; "hardhat";
    "infura"; "ledger"; "notebook"; "optimism"; "polygon"; "polygon-zkevm";
    "safe"; "solidity"; "template"; "tenderly"; "titanoboa"; "tokens";
    "trezor"; "vyper" ].

Definition clean_plugin_name (name : string) : string :=
  PyStr.replace "ape-" "" (PyStr.replace "_" "-" name).

(** Truthiness of an [Optional[str]]: [None] and the empty string are falsy. *)
Definition truthy (o : option string) : bool :=
  match o with
  | Some (String _ _) => true
  | _ => false
  end.

(** ** What the module takes from outside the repository *)

(** The two classes of the [packaging] library the module uses: a specifier
    has an operator and a version text, a parsed version has its release
    components. *)
Module packaging.
Record Specifier : Type := { operator : string; version : string }.
Record Version : Type := { major : N; minor : N }.
End packaging.

(** An installed distribution as [_filter_plugins_from_dists] reads it: the
    [name] attribute (empty when missing) and the [metadata] mapping (empty
    when missing). *)
Record Distribution : Type := {
  dist_name : string;
  dist_metadata : gmap string string;
}.

Record Externals : Type := {
  (** [PIP_COMMAND], which depends on [which("uv")] and [sys.executable]. *)
  PIP_COMMAND : list string;
  (** [urlparse(url).path]; [None] when [urlparse] raises [ValueError]. *)
  urlparse_path : string → option string;
  (** [SpecifierSet(text)] as the list of its specifiers in iteration order;
      [None] when it raises [InvalidSpecifier]. *)
  SpecifierSet : string → option (list packaging.Specifier);
  (** [Version(text)]; [None] when it raises [InvalidVersion]. *)
  Version : string → option packaging.Version;
  (** [Version(ape_version_str.split("dev")[0].rstrip("."))]. *)
  ape_version_str_parsed : packaging.Version;
  (** [_get_distributions()]. *)
  _get_distributions : list Distribution;
  (** [github_client.available_plugins]. *)
  available_plugins : gset string;
  (** [get_package_version(package_name)]. *)
  get_package_version : string → option string;
  (** The answer typed at [click.confirm(prompt)]. *)
  click_confirm : string → bool;
}.

Definition _filter_plugins_from_dists (dists : list Distribution) : list string :=
  flat_map
    (λ dist,
       match dist_name dist with
       | String _ _ as name =>
           if PyStr.startswith name "ape-" then [name] else []
       | EmptyString =>
           if decide (dist_metadata dist = ∅) then []
           else
             let name := default "" (dist_metadata dist !! "Name") in
             if PyStr.startswith name "ape-" then [name] else []
       end)
    dists.

Definition get_plugin_dists (E : Externals) : list string :=
  _filter_plugins_from_dists (_get_distributions E).

Definition _get_available_plugins (E : Externals) : gset string :=
  available_plugins E.

(** ** ApeVersion *)

Module ApeVersion.
Section methods.
Context (E : Externals).

Definition version : packaging.Version := ape_version_str_parsed E.
Definition major : N := packaging.major version.
Definition minor : N := packaging.minor version.
Definition is_pre_one : bool := bool_decide (major = 0%N).

Definition version_range : string :=
  if bool_decide (major = 0%N)
  then ">=0." +:+ pretty minor +:+ ",<0." +:+ pretty (minor + 1)%N
  else ">=" +:+ pretty major +:+ ",<" +:+ pretty (major + 1)%N.

Definition base : string :=
  if bool_decide (major = 0%N)
  then "0." +:+ pretty minor +:+ ".0"
  else pretty major +:+ ".0.0".

(** The body of the loop over the specifier set. *)
Fixpoint would_get_downgraded_specs
    (spec_set : list packaging.Specifier) : result bool :=
  match spec_set with
  | [] => Ok false
  | spec :: rest =>
      match Version E (packaging.version spec) with
      | None => Raise InvalidVersion
      | Some spec_version =>
          if bool_decide (packaging.operator spec ∈ ["=="; "<"; "<="])
             && ((is_pre_one
                  && bool_decide (packaging.major spec_version < major)%N)
                 || (is_pre_one
                     && bool_decide (packaging.minor spec_version < minor)%N))
          then Ok true
          else would_get_downgraded_specs rest
      end
  end.

Definition would_get_downgraded (plugin_version_str : string) : result bool :=
  match SpecifierSet E plugin_version_str with
  | None => Raise InvalidSpecifier
  | Some spec_set => would_get_downgraded_specs spec_set
  end.
End methods.
End ApeVersion.

(** ** _split_name_and_version *)

Definition _split_name_and_version (value : string)
    : result (string * option string) :=
  if PyStr.has_char "@" value then
    let parts := filter (λ x, x ≠ "") (PyStr.split "@" value) in
    match parts with
    | [] => Raise IndexError
    | p0 :: rest => Ok (p0, Some (PyStr.join "@" rest))
    end
  else
    let chars :=
      filter (λ c, PyStr.has_char c value) ["="; "<"; ">"]%char in
    match chars with
    | [] => Ok (value, None)
    | _ :: _ =>
        match omap (λ c, PyStr.index c value) chars with
        | [] => Raise (ValueError "min() arg is an empty sequence")
        | i :: others =>
            let index := foldl Nat.min i others in
            Ok (PyStr.take index value, Some (PyStr.drop index value))
        end
    end.

(** ** Logging *)

Inductive LogLevel : Type := ERROR | WARNING | INFO | SUCCESS.

(** A computation that may log and may raise: the records logged, in order,
    and the outcome. *)
Definition Logged (A : Type) : Type := (list (LogLevel * string) * result A)%type.

Definition lret {A} (a : A) : Logged A := ([], Ok a).
Definition lift {A} (r : result A) : Logged A := ([], r).
Definition logger (level : LogLevel) (msg : string) : Logged unit :=
  ([(level, msg)], Ok tt).

Definition lbind {A B} (m : Logged A) (k : A → Logged B) : Logged B :=
  match m with
  | (log, Ok a) => let '(log', r) := k a in (log ++ log', r)
  | (log, Raise e) => (log, Raise e)
  end.

Arguments lbind : simpl never.

Notation "x ⇐ m ;;; k" := (lbind m (λ x, k))
  (at level 20, m at level 100, k at level 200, right associativity,
   format "x  ⇐  m  ;;;  '/' k").
Notation "' p ⇐ m ;;; k" := (lbind m (λ p, k))
  (at level 20, p pattern, m at level 100, k at level 200,
   right associativity, format "' p  ⇐  m  ;;;  '/' k").

(** [l[0]] and [l[-1]]. *)
Definition getitem_first {A} (l : list A) : result A :=
  match l with
  | [] => Raise IndexError
  | x :: _ => Ok x
  end.

Definition getitem_last {A} (l : list A) : result A :=
  match last l with
  | None => Raise IndexError
  | Some x => Ok x
  end.

(** ** Iterables

    An argument annotated [Iterable] is either a collection of strings that
    can be gone through any number of times (a list, a tuple, a set), or a
    one-shot iterator (a generator, the result of [iter]), which hands out
    each of its items once.  The object is mutable and shared with the
    caller: an operation returns, with its answer, the object as it is
    afterwards. *)

Inductive Iterable : Type :=
  | Collection (items : list string)
  | Iterator (remaining : list string).

Module PyIter.

(** [bool(iterable)]: a collection is true when it is not empty; an iterator
    defines neither [__bool__] nor [__len__] and is always true. *)
Definition truthy (iterable : Iterable) : bool :=
  match iterable with
  | Collection [] => false
  | _ => true
  end.

(** [x in iterator]: the iterator is advanced until an item equal to [x] has
    been handed out, or until it is exhausted. *)
Fixpoint advance_to (x : string) (remaining : list string)
    : bool * list string :=
  match remaining with
  | [] => (false, [])
  | item :: remaining =>
      if decide (item = x) then (true, remaining) else advance_to x remaining
  end.

(** [x in iterable]. *)
Definition contains (x : string) (iterable : Iterable) : bool * Iterable :=
  match iterable with
  | Collection items => (bool_decide (x ∈ items), iterable)
  | Iterator remaining =>
      let '(found, remaining) := advance_to x remaining in
      (found, Iterator remaining)
  end.

End PyIter.

(** ** PluginMetadata *)

Inductive PluginType : Type := CORE | INSTALLED | THIRD_PARTY | AVAILABLE.

#[global] Instance PluginType_eq_dec : EqDecision PluginType.
Proof. solve_decision. Defined.

Module PluginMetadata.

Record t : Type := {
  name : string;
  version : option string;
  pip_command : list string;
}.

(** The values stored in the dictionary [_prepare_install] returns. *)
Inductive value : Type :=
  | ListOfStr (l : list string)
  | OptionalStr (o : option string)
  | ModifyPluginResultHandler (plugin : t).

Section methods.
Context (E : Externals).

(** The [model_validator] that runs before the fields are set; its three
    arguments are the entries of [values], [None] for a missing key. *)
Definition validate_name
    (name0 : option string) (version0 : option string)
    (pip_command0 : option (list string)) : result t :=
  match name0 with
  | None => Raise (ValueError "'name' required.")
  | Some name =>
      '(name, version) ←
        (if PyStr.startswith name "git+" then
           let version := name in
           match urlparse_path E (PyStr.replace "git+" "" version) with
           | None => Raise (ValueError "urlparse")
           | Some path =>
               stem ← getitem_first (PyStr.split ".git" path) ;;;
               leaf ← getitem_last (PyStr.split "/" stem) ;;;
               Ok (PyStr.replace "ape-" "" leaf, Some version)
           end
         else Ok (name, version0)) ;;;
      '(name, version) ←
        (if truthy version && PyStr.startswith (default "" version) "git+"
         then
           if negb (PyStr.contains ("ape-" +:+ name) (default "" version))
           then Raise (ValueError "Plugin mismatch with remote git version.")
           else Ok (name, version)
         else if negb (truthy version) then
           match
             find (λ constraint, PyStr.contains constraint name)
                  ["=="; "<="; ">="; "@git+"]
           with
           | None => Ok (name, version)
           | Some _ => _split_name_and_version name
           end
         else Ok (name, version)) ;;;
      let pip_cmd := default (PIP_COMMAND E) pip_command0 in
      Ok {| name := clean_plugin_name name;
            version := version;
            pip_command := pip_cmd |}
  end.

Definition package_name (self : t) : string := "ape-" +:+ name self.

Definition module_name (self : t) : string :=
  "ape_" +:+ PyStr.replace "-" "_" (name self).

Definition current_version (self : t) : option string :=
  get_package_version E (package_name self).

Definition install_str (self : t) : result string :=
  if truthy (version self)
     && PyStr.startswith (default "" (version self)) "git+"
  then Ok (default "" (version self))
  else
    version ←
      (if truthy (version self) then
         let version := default "" (version self) in
         let version :=
           if negb (existsb (λ x, PyStr.has_char x version)
                            ["="; "<"; ">"]%char)
           then "==" +:+ version
           else version in
         downgraded ← ApeVersion.would_get_downgraded E version ;;;
         if (downgraded : bool) then
           Raise (PluginVersionError
                    "install" "Doing so will downgrade Ape's version."
                    "Downgrade Ape first.")
         else Ok version
       else Ok (ApeVersion.version_range E)) ;;;
    Ok (if decide (version = "") then package_name self
        else package_name self +:+ version).

Definition in_core (self : t) : bool :=
  bool_decide (PyStr.strip (module_name self) ∈ CORE_PLUGINS).

(** Clearing the cache of [_get_distributions] ([use_cache = False]) does not
    change what an installation that stays the same answers. *)
Definition check_installed (self : t) (use_cache : bool) : bool :=
  bool_decide (package_name self ∈ get_plugin_dists E).

Definition is_installed (self : t) : bool := check_installed self true.

Definition is_available (self : t) : bool :=
  bool_decide (module_name self ∈ _get_available_plugins E).

(** [check_trusted] returns its answer and [trusted_list] as the call leaves
    it: [trusted_list or TRUSTED_PLUGINS] is the given object when it is
    true, and the membership test is made on that object. *)
Definition check_trusted
    (self : t) (use_web : bool) (trusted_list : option Iterable)
    : bool * option Iterable :=
  if use_web then (is_available self, trusted_list)
  else
    match trusted_list with
    | Some iterable =>
        if PyIter.truthy iterable then
          let '(found, iterable) := PyIter.contains (name self) iterable in
          (found, Some iterable)
        else (bool_decide (name self ∈ TRUSTED_PLUGINS), trusted_list)
    | None => (bool_decide (name self ∈ TRUSTED_PLUGINS), trusted_list)
    end.

Definition is_trusted (self : t) : bool := (check_trusted self true None).1.

Definition is_third_party (self : t) : bool :=
  is_installed self && negb (is_trusted self).

Definition can_install (self : t) : bool :=
  let requesting_different_version :=
    match version self with
    | None => false
    | Some _ => negb (bool_decide (version self = current_version self))
    end in
  negb (is_installed self) || requesting_different_version.

Definition __str__ (self : t) : string :=
  if truthy (version self)
     && PyStr.startswith (default "" (version self)) "git+"
  then default "" (version self)
  else
    let version_key :=
      match version self with
      | Some (String c _ as v) =>
          if PyStr.isnumeric c then "==" +:+ v else ""
      | _ => ""
      end in
    name self +:+ version_key.

Definition prepare_package_manager_args
    (self : t) (verb : string) (python_location : option string)
    (extra_args : option (list string)) : result (list string) :=
  let extra_args := default [] extra_args in
  let command := pip_command self in
  first ← getitem_first command ;;;
  if decide (first = "uv") then
    Ok (match python_location with
        | Some (String _ _ as python_location) =>
            (command ++ [verb; "--python"; python_location]) ++ extra_args
        | _ => command ++ [verb] ++ extra_args
        end)
  else
    Ok (match python_location with
        | Some (String _ _ as python_location) =>
            (command ++ ["--python"; python_location; verb]) ++ extra_args
        | _ => command ++ [verb] ++ extra_args
        end).

Definition _prepare_install
    (self : t) (upgrade skip_confirmation : bool)
    (python_location : option string)
    : Logged (option (gmap string value)) :=
  if in_core self then
    _ ⇐ logger ERROR
          ("Cannot install core 'ape' plugin '" +:+ name self +:+ "'.") ;;;
    lret None
  else if bool_decide (version self ≠ None) && upgrade then
    _ ⇐ logger ERROR
          ("Cannot use '--upgrade' option when specifying a version for plugin '"
           +:+ name self +:+ "'.") ;;;
    lret None
  else
    _ ⇐ (if is_third_party self
         then logger WARNING
                ("Plugin '" +:+ name self +:+ "' is not an trusted plugin.")
         else lret tt) ;;;
    let result_handler := ModifyPluginResultHandler self in
    pip_arguments ⇐
      lift (prepare_package_manager_args self "install" python_location None) ;;;
    if upgrade then
      _ ⇐ logger INFO ("Upgrading '" +:+ name self +:+ "' plugin ...") ;;;
      let pip_arguments :=
        pip_arguments
        ++ ["--upgrade";
            package_name self +:+ ApeVersion.version_range E;
            "--quiet"] in
      let version_before := current_version self in
      lret (Some (<["args" := ListOfStr pip_arguments]>
                  (<["version_before" := OptionalStr version_before]>
                   (<["result_handler" := result_handler]> ∅))))
    else if can_install self
            && (is_available self || skip_confirmation
                || click_confirm E
                     ("Install the '" +:+ name self +:+ "' plugin?"))
    then
      _ ⇐ logger INFO ("Installing '" +:+ __str__ self +:+ "' plugin ...") ;;;
      install ⇐ lift (install_str self) ;;;
      let pip_arguments := pip_arguments ++ [install; "--quiet"] in
      lret (Some (<["args" := ListOfStr pip_arguments]>
                  (<["result_handler" := result_handler]> ∅)))
    else
      _ ⇐ logger WARNING
            ("'" +:+ name self
             +:+ "' is already installed. Did you mean to include '--upgrade'?") ;;;
      lret None.

Definition _get_uninstall_args
    (self : t) (python_location : option string) : result (list string) :=
  arguments ←
    prepare_package_manager_args self "uninstall" python_location None ;;;
  first ← getitem_first (pip_command self) ;;;
  let arguments :=
    if decide (first ≠ "uv") then arguments ++ ["-y"] else arguments in
  Ok (arguments ++ [package_name self; "--quiet"]).

End methods.
End PluginMetadata.

Arguments PluginMetadata.validate_name : simpl never.

(** ** PluginGroup and PluginMetadataList *)

Record PluginGroup : Type := {
  plugin_type : PluginType;
  plugins : gmap string PluginMetadata.t;
}.

(** [group.plugins[name] = plugin]. *)
Definition setitem (group : PluginGroup) (name : string)
    (plugin : PluginMetadata.t) : PluginGroup :=
  {| plugin_type := plugin_type group;
     plugins := <[name := plugin]> (plugins group) |}.

Module PluginMetadataList.

Record t : Type := {
  core : PluginGroup;
  available : PluginGroup;
  installed : PluginGroup;
  third_party : PluginGroup;
}.

(** The four groups before the loop: each [PluginGroup] starts with an empty
    dictionary of its own. *)
Definition empty : t :=
  {| core := {| plugin_type := CORE; plugins := ∅ |};
     available := {| plugin_type := AVAILABLE; plugins := ∅ |};
     installed := {| plugin_type := INSTALLED; plugins := ∅ |};
     third_party := {| plugin_type := THIRD_PARTY; plugins := ∅ |} |}.

Section methods.
Context (E : Externals).
Context (include_available : bool).

(** One iteration of the loop of [from_package_names], on [trusted_list] as
    the iterations before left it and on the four groups built so far. *)
Definition from_package_names_body
    (trusted_list : option Iterable) (groups : t) (package_id : string)
    : Logged (t * option Iterable) :=
  let parts := PyStr.split "==" package_id in
  name ⇐ lift (getitem_first parts) ;;;
  let version := if decide (length parts = 2) then parts !! 1 else None in
  plugin ⇐
    lift (PluginMetadata.validate_name E (Some (PyStr.strip name)) version None) ;;;
  if PluginMetadata.in_core plugin then
    lret ({| core := setitem (core groups) name plugin;
             available := available groups;
             installed := installed groups;
             third_party := third_party groups |},
          trusted_list)
  else
    let is_installed := PluginMetadata.is_installed E plugin in
    let '(is_trusted, trusted_list) :=
      PluginMetadata.check_trusted E plugin false trusted_list in
    let is_available :=
      include_available && PluginMetadata.is_available E plugin in
    if include_available && is_available && negb is_installed then
      lret ({| core := core groups;
               available := setitem (available groups) name plugin;
               installed := installed groups;
               third_party := third_party groups |},
            trusted_list)
    else if is_installed && negb (PluginMetadata.in_core plugin) && is_trusted
    then
      lret ({| core := core groups;
               available := available groups;
               installed := setitem (installed groups) name plugin;
               third_party := third_party groups |},
            trusted_list)
    else if is_installed then
      lret ({| core := core groups;
               available := available groups;
               installed := installed groups;
               third_party := setitem (third_party groups) name plugin |},
            trusted_list)
    else
      _ ⇐ logger ERROR
            ("'" +:+ PluginMetadata.name plugin +:+ "' is not a plugin.") ;;;
      lret (groups, trusted_list).

Fixpoint from_package_names_loop
    (trusted_list : option Iterable) (packages : list string) (groups : t)
    : Logged (t * option Iterable) :=
  match packages with
  | [] => lret (groups, trusted_list)
  | package_id :: rest =>
      '(groups, trusted_list) ⇐
        from_package_names_body trusted_list groups package_id ;;;
      from_package_names_loop trusted_list rest groups
  end.

Definition from_package_names
    (trusted_list : option Iterable) (packages : list string) : Logged t :=
  '(groups, _) ⇐ from_package_names_loop trusted_list packages empty ;;;
  lret groups.

End methods.
End PluginMetadataList.

(** ** A concrete setting

    A fragment of [packaging] on release-only versions (dotted decimal
    numbers), where it agrees with the library, and installations to
    evaluate the definitions on. *)

Module Sample.

Fixpoint digits_value (acc : N) (s : string) : option N :=
  match s with
  | EmptyString => Some acc
  | String c s' =>
      match Ascii.is_nat c with
      | Some d => digits_value (acc * 10 + N.of_nat d)%N s'
      | None => None
      end
  end.

Definition number (s : string) : option N :=
  match s with
  | EmptyString => None
  | _ => digits_value 0%N s
  end.

(** [Version(text)] for [text] a release [N(.N)*]; a missing minor is 0. *)
Definition Version_of (text : string) : option packaging.Version :=
  match mapM number (PyStr.split "." text) with
  | Some (major :: minor :: _) =>
      Some {| packaging.major := major; packaging.minor := minor |}
  | Some [major] =>
      Some {| packaging.major := major; packaging.minor := 0 |}
  | _ => None
  end.

Definition operators : list string :=
  ["==="; "~="; "=="; "!="; "<="; ">="; "<"; ">"].

(** [text] without a final [.*], when it has one. *)
Fixpoint strip_wildcard (text : string) : option string :=
  match text with
  | EmptyString => None
  | String c text' =>
      if decide (text = ".*") then Some EmptyString
      else String c <$> strip_wildcard text'
  end.

(** One specifier: an operator, then a release, which after [==] and [!=]
    may end in the wildcard [.*]. *)
Definition Specifier_of (text : string) : option packaging.Specifier :=
  let text := PyStr.strip text in
  operator ← find (λ op, PyStr.startswith text op) operators ;
  rest ← PyStr.strip_prefix operator text ;
  let version := PyStr.strip rest in
  let release :=
    if bool_decide (operator ∈ ["=="; "!="])
    then default version (strip_wildcard version)
    else version in
  if bool_decide (is_Some (Version_of release))
  then Some {| packaging.operator := operator; packaging.version := version |}
  else None.

(** [SpecifierSet(text)], iterated in the order of the text. *)
Definition SpecifierSet_of (text : string) : option (list packaging.Specifier) :=
  mapM Specifier_of
    (filter (λ part, part ≠ "") (PyStr.strip <$> PyStr.split "," text)).

(** An installation of Ape 0.8 with [ape-solidity] and [ape-foo] installed,
    where the registry offers the solidity and the vyper plugins. *)
Definition externals : Externals :=
  {| PIP_COMMAND := ["python"; "-m"; "pip"];
     urlparse_path := λ url, Some url;
     SpecifierSet := SpecifierSet_of;
     Version := Version_of;
     ape_version_str_parsed :=
       {| packaging.major := 0; packaging.minor := 8 |};
     _get_distributions :=
       [ {| dist_name := "ape-solidity"; dist_metadata := ∅ |};
         {| dist_name := ""; dist_metadata := {[ "Name" := "ape-foo" ]} |};
         {| dist_name := "click"; dist_metadata := ∅ |} ];
     available_plugins := {[ "ape_solidity"; "ape_vyper" ]};
     get_package_version :=
       λ package_name,
         if decide (package_name = "ape-solidity") then Some "0.8.2" else None;
     click_confirm := λ _, true |}.

(** The same installation for Ape 1.2. *)
Definition externals_one : Externals :=
  {| PIP_COMMAND := ["uv"; "pip"];
     urlparse_path := urlparse_path externals;
     SpecifierSet := SpecifierSet_of;
     Version := Version_of;
     ape_version_str_parsed :=
       {| packaging.major := 1; packaging.minor := 2 |};
     _get_distributions := _get_distributions externals;
     available_plugins := available_plugins externals;
     get_package_version := get_package_version externals;
     click_confirm := click_confirm externals |}.

(** The installation [externals] with one more distribution, whose name is
    not a valid project name. *)
Definition externals_unchecked_names : Externals :=
  {| PIP_COMMAND := PIP_COMMAND externals;
     urlparse_path := urlparse_path externals;
     SpecifierSet := SpecifierSet_of;
     Version := Version_of;
     ape_version_str_parsed := ape_version_str_parsed externals;
     _get_distributions :=
       {| dist_name := "ape-test>=1"; dist_metadata := ∅ |}
       :: _get_distributions externals;
     available_plugins := available_plugins externals;
     get_package_version := get_package_version externals;
     click_confirm := click_confirm externals |}.

End Sample.

(** ** Definitions that follow the wording of the specification *)

(** The version specifier [install_str] checks: a requested version that
    contains none of [=], [<] and [>] is prefixed by [==]. *)
Definition normalized_specifier (version : string) : string :=
  if existsb (λ x, PyStr.has_char x version) ["="; "<"; ">"]%char
  then version
  else "==" +:+ version.

(** A specifier that asks for a minor version below Ape's: its operator is
    [==], [<] or [<=] and the minor component of its version is strictly
    less than Ape's minor version. *)
Definition asks_lower_minor (E : Externals) (spec : packaging.Specifier) : Prop :=
  packaging.operator spec ∈ ["=="; "<"; "<="]
  ∧ ∃ spec_version,
      Version E (packaging.version spec) = Some spec_version
      ∧ (packaging.minor spec_version < ApeVersion.minor E)%N.

(** The outcome is a raised [PluginVersionError]. *)
Definition raises_PluginVersionError {A} (r : result A) : Prop :=
  ∃ operation reason resolution,
    r = Raise (PluginVersionError operation reason resolution).

(** A character of a package name: a letter, a digit, [-], [_] or [.]. *)
Definition is_name_char (c : ascii) : bool :=
  let n := nat_of_ascii c in
  ((48 <=? n) && (n <=? 57)) || ((65 <=? n) && (n <=? 90))
  || ((97 <=? n) && (n <=? 122)) || (n =? 45) || (n =? 46) || (n =? 95).

(** A package-name string, optionally suffixed by [==] and a version (which
    is not a [git+] remote). *)
Definition is_package_id (package_id : string) : bool :=
  match PyStr.split "==" package_id with
  | [name] => PyStr.all_chars is_name_char name
  | [name; version] =>
      PyStr.all_chars is_name_char name
      && negb (PyStr.startswith version "git+")
  | _ => false
  end.

(** The group with a plugin stored under a key in one of its four
    dictionaries, or left as it is. *)
Definition place (groups : PluginMetadataList.t) (group : option PluginType)
    (key : string) (plugin : PluginMetadata.t) : PluginMetadataList.t :=
  let '(PluginMetadataList.Build_t core available installed third_party) :=
    groups in
  match group with
  | Some CORE =>
      PluginMetadataList.Build_t
        (setitem core key plugin) available installed third_party
  | Some AVAILABLE =>
      PluginMetadataList.Build_t
        core (setitem available key plugin) installed third_party
  | Some INSTALLED =>
      PluginMetadataList.Build_t
        core available (setitem installed key plugin) third_party
  | Some THIRD_PARTY =>
      PluginMetadataList.Build_t
        core available installed (setitem third_party key plugin)
  | None => groups
  end.

(** A trusted list that answers every membership test from the same items:
    none is given, or a collection. *)
Definition reusable (trusted_list : option Iterable) : bool :=
  match trusted_list with
  | Some (Iterator _) => false
  | _ => true
  end.

Section reference_classification.
Context (E : Externals).
Context (include_available : bool).

(** The module name of the reference definition: [ape_] and the cleaned name
    with dashes replaced by underscores. *)
Definition reference_module_name (cleaned_name : string) : string :=
  "ape_" +:+ PyStr.replace "-" "_" cleaned_name.

(** The reference definition of the group of a plugin; trusted is what the
    trust test on [trusted_list] answers for the plugin. *)
Definition reference_group
    (trusted_list : option Iterable) (plugin : PluginMetadata.t)
    : option PluginType :=
  let module_name := reference_module_name (PluginMetadata.name plugin) in
  let installed := PluginMetadata.is_installed E plugin in
  let trusted := (PluginMetadata.check_trusted E plugin false trusted_list).1 in
  if bool_decide (module_name ∈ CORE_PLUGINS) then Some CORE
  else if include_available
          && bool_decide (module_name ∈ available_plugins E)
          && negb installed
  then Some AVAILABLE
  else if installed && trusted then Some INSTALLED
  else if installed then Some THIRD_PARTY
  else None.

(** The key and the plugin of an entry [name] or [name==version]: the key is
    the name as written, the plugin has the cleaned name. *)
Definition reference_entry (package_id : string) : string * PluginMetadata.t :=
  let parts := PyStr.split "==" package_id in
  let name := default "" (head parts) in
  let version := if decide (length parts = 2) then parts !! 1 else None in
  (name,
   {| PluginMetadata.name := clean_plugin_name name;
      PluginMetadata.version := version;
      PluginMetadata.pip_command := PIP_COMMAND E |}).

(** One entry stored in the group the reference definition gives.  The trust
    test is made for the entries that are not core plugins, and leaves the
    trusted list to the entries that follow. *)
Definition reference_step
    (state : PluginMetadataList.t * option Iterable) (package_id : string)
    : PluginMetadataList.t * option Iterable :=
  let '(groups, trusted_list) := state in
  let '(key, plugin) := reference_entry package_id in
  let group := reference_group trusted_list plugin in
  (place groups group key plugin,
   if decide (group = Some CORE) then trusted_list
   else (PluginMetadata.check_trusted E plugin false trusted_list).2).

(** The four groups when every entry is classified by the reference
    definition. *)
Definition reference_from_package_names
    (trusted_list : option Iterable) (packages : list string)
    : PluginMetadataList.t :=
  (foldl reference_step (PluginMetadataList.empty, trusted_list) packages).1.

(** The group in which the loop of [from_package_names] stores a plugin. *)
Definition stored_in
    (trusted_list : option Iterable) (plugin : PluginMetadata.t)
    : option PluginType :=
  if PluginMetadata.in_core plugin then Some CORE
  else
    let is_installed := PluginMetadata.is_installed E plugin in
    let is_trusted :=
      (PluginMetadata.check_trusted E plugin false trusted_list).1 in
    let is_available :=
      include_available && PluginMetadata.is_available E plugin in
    if include_available && is_available && negb is_installed
    then Some AVAILABLE
    else if is_installed && negb (PluginMetadata.in_core plugin) && is_trusted
    then Some INSTALLED
    else if is_installed then Some THIRD_PARTY
    else None.

(** The trusted list as the iteration of the loop on a plugin leaves it. *)
Definition trusted_list_after
    (trusted_list : option Iterable) (plugin : PluginMetadata.t)
    : option Iterable :=
  if PluginMetadata.in_core plugin then trusted_list
  else (PluginMetadata.check_trusted E plugin false trusted_list).2.

(** The group of a key: the one of the plugin made from the key alone. *)
Definition group_of_key (trusted_list : option Iterable) (key : string)
    : option PluginType :=
  match PluginMetadata.validate_name E (Some (PyStr.strip key)) None None with
  | Ok plugin => stored_in trusted_list plugin
  | Raise _ => None
  end.

End reference_classification.

Arguments reference_step : simpl never.
Arguments reference_entry : simpl never.

(** The dictionary of one of the four groups. *)
Definition plugins_of (groups : PluginMetadataList.t) (group : PluginType)
    : gmap string PluginMetadata.t :=
  match group with
  | CORE => plugins (PluginMetadataList.core groups)
  | AVAILABLE => plugins (PluginMetadataList.available groups)
  | INSTALLED => plugins (PluginMetadataList.installed groups)
  | THIRD_PARTY => plugins (PluginMetadataList.third_party groups)
  end.

(** No name contains a character of a version constraint. *)
Definition constraint_free (name : string) : bool :=
  negb (existsb (λ c, PyStr.has_char c name) ["<"; ">"; "="; "@"]%char).

(** The names of the installed plugin distributions and of the plugins of
    the registry are free of version-constraint characters, as the names of
    Python projects and of repositories are. *)
Definition names_constraint_free (E : Externals) : Prop :=
  Forall (λ name, constraint_free name = true) (get_plugin_dists E)
  ∧ Forall (λ name, constraint_free name = true)
      (elements (available_plugins E)).

(** No name is a key of two of the four groups. *)
Definition pairwise_disjoint (groups : PluginMetadataList.t) : Prop :=
  let core := dom (plugins (PluginMetadataList.core groups)) in
  let available := dom (plugins (PluginMetadataList.available groups)) in
  let installed := dom (plugins (PluginMetadataList.installed groups)) in
  let third_party := dom (plugins (PluginMetadataList.third_party groups)) in
  core ## available ∧ core ## installed ∧ core ## third_party
  ∧ available ## installed ∧ available ## third_party
  ∧ installed ## third_party.


(** ** More of the module *)

(** [PluginMetadataList.get_plugin]. *)
Definition get_plugin (self : PluginMetadataList.t) (name : string)
    (check_available : bool) : option PluginMetadata.t :=
  let name := if PyStr.startswith name "ape_" then name else "ape_" +:+ name in
  match plugins (PluginMetadataList.core self) !! name with
  | Some plugin => Some plugin
  | None =>
      match plugins (PluginMetadataList.installed self) !! name with
      | Some plugin => Some plugin
      | None =>
          match plugins (PluginMetadataList.third_party self) !! name with
          | Some plugin => Some plugin
          | None =>
              if check_available
              then plugins (PluginMetadataList.available self) !! name
              else None
          end
      end
  end.

(** The methods of [ModifyPluginResultHandler]; [_plugin] is the plugin the
    handler was made for and [result] the exit status of the package
    manager. *)
Section result_handler.
Context (E : Externals) (_plugin : PluginMetadata.t).

Definition _log_errors_occurred (verb : string) : Logged unit :=
  logger ERROR
    ("Errors occurred when " +:+ verb +:+ " '"
     +:+ PluginMetadata.__str__ _plugin +:+ "'.").

Definition _log_modify_failed (verb : string) : Logged unit :=
  logger ERROR
    ("Failed to " +:+ verb +:+ " plugin '"
     +:+ PluginMetadata.__str__ _plugin +:+ ".").

Definition handle_install_result (result : Z) : Logged bool :=
  if negb (PluginMetadata.check_installed E _plugin false) then
    _ ⇐ _log_modify_failed "install" ;;;
    lret false
  else if negb (bool_decide (result = 0%Z)) then
    _ ⇐ _log_errors_occurred "installing" ;;;
    lret false
  else
    let plugin_id := PluginMetadata.name _plugin in
    let version := PluginMetadata.version _plugin in
    let plugin_id :=
      if truthy version
      then plugin_id +:+ "==" +:+ default "" version
      else plugin_id in
    _ ⇐ logger SUCCESS ("Plugin '" +:+ plugin_id +:+ "' has been installed.") ;;;
    lret true.

Definition handle_upgrade_result (result : Z) (version_before : option string)
    : Logged bool :=
  if negb (bool_decide (result = 0%Z)) then
    _ ⇐ _log_errors_occurred "upgrading" ;;;
    lret false
  else
    let version_now := PluginMetadata.version _plugin in
    match version_now with
    | Some now =>
        if bool_decide (version_before = version_now) then
          _ ⇐ logger INFO
                ("'" +:+ PluginMetadata.name _plugin
                 +:+ "' already has version '" +:+ now +:+ "'.") ;;;
          lret true
        else if truthy version_now then
          _ ⇐ logger SUCCESS
                ("Plugin '" +:+ PluginMetadata.name _plugin
                 +:+ "' has been upgraded to version " +:+ now +:+ ".") ;;;
          lret true
        else lret true
    | None => lret true
    end.

Definition handle_uninstall_result (result : Z) : Logged bool :=
  if PluginMetadata.check_installed E _plugin false then
    _ ⇐ _log_modify_failed "uninstall" ;;;
    lret false
  else if negb (bool_decide (result = 0%Z)) then
    _ ⇐ _log_errors_occurred "uninstalling" ;;;
    lret false
  else
    _ ⇐ logger SUCCESS
          ("Plugin '" +:+ PluginMetadata.name _plugin
           +:+ "' has been uninstalled.") ;;;
    lret true.

End result_handler.


(** What the loop of [from_package_names] makes of an entry: the key and the
    validated plugin. *)
Definition entry_plugin (E : Externals) (package_id : string)
    : result (string * PluginMetadata.t) :=
  let parts := PyStr.split "==" package_id in
  name ← getitem_first parts ;;;
  plugin ←
    PluginMetadata.validate_name E (Some (PyStr.strip name))
      (if decide (length parts = 2) then parts !! 1 else None) None ;;;
  Ok (name, plugin).

(** The records [from_package_names] logs for an entry: an error for a
    plugin that is stored in no group. *)
Definition entry_log (E : Externals) (include_available : bool)
    (trusted_list : option Iterable) (package_id : string)
    : list (LogLevel * string) :=
  match entry_plugin E package_id with
  | Ok (_, plugin) =>
      match stored_in E include_available trusted_list plugin with
      | Some _ => []
      | None =>
          [(ERROR, "'" +:+ PluginMetadata.name plugin +:+ "' is not a plugin.")]
      end
  | Raise _ => []
  end.


(** [PluginGroup.max_name_length]: the greatest length of the name of a
    plugin of the group, 0 for an empty group; a maximum does not depend on
    the order of the dictionary. *)
Definition max_name_length (group : PluginGroup) : nat :=
  if decide (plugins group = ∅) then 0
  else
    max_list
      ((λ entry, String.length (PluginMetadata.name entry.2))
         <$> map_to_list (plugins group)).

(** [spacing * ' ']: no space for a negative [spacing]. *)
Definition spaces (spacing : Z) : string :=
  Nat.iter (Z.to_nat spacing) (String " ") "".

(** The line the loop of [PluginGroup._get_default_formatted_str] appends
    for one plugin, [max_length] being resolved. *)
Definition _get_default_formatted_str_line
    (E : Externals) (max_length : Z) (include_version include_prefix : bool)
    (plugin : PluginMetadata.t) : string :=
  let line :=
    if include_prefix then PluginMetadata.package_name plugin
    else PluginMetadata.name plugin in
  let line :=
    if include_version then
      let version :=
        if truthy (PluginMetadata.version plugin)
        then PluginMetadata.version plugin
        else get_package_version E (PluginMetadata.package_name plugin) in
      if truthy version then
        let spacing := (max_length - Z.of_nat (String.length line) + 4)%Z in
        line +:+ spaces spacing +:+ default "" version
      else line
    else line in
  "  " +:+ line.



(** The plugins that the entries of [packages] store under [key] in the
    group [group], in the order of the entries; each entry meets the trusted
    list as the entries before it left it. *)
Fixpoint stored_under (E : Externals) (include_available : bool)
    (trusted_list : option Iterable) (group : PluginType) (key : string)
    (packages : list string) : list PluginMetadata.t :=
  match packages with
  | [] => []
  | package_id :: packages =>
      match entry_plugin E package_id with
      | Ok (name, plugin) =>
          let rest :=
            stored_under E include_available
              (trusted_list_after E trusted_list plugin) group key packages in
          if decide (name = key
                     ∧ stored_in E include_available trusted_list plugin
                       = Some group)
          then plugin :: rest
          else rest
      | Raise _ => []
      end
  end.

(** ** The command builders on the objects they share

    The lists the command builders read and make are Python objects: the
    [pip_command] of a plugin may be the module's [PIP_COMMAND] itself or a
    list shared with another plugin, [extra_args] is an object of the
    caller, and [_get_uninstall_args] appends in place to the list
    [prepare_package_manager_args] hands it.  Here the builders run on a
    store of objects, in which a list is named by a reference. *)

Module Objects.

Inductive object : Type :=
  | ListObject (items : list string)
  | IteratorObject (remaining : list string).

Definition reference : Type := positive.

Abbreviation store := (gmap reference object).

(** A computation on the store: its outcome and the store it leaves, or
    nothing when it meets a reference without an object or uses as a list
    an object that is none, which no Python program does with the fields
    and values of this module. *)
Definition Stateful (A : Type) : Type := store → option (result A * store).

Definition ret {A} (a : A) : Stateful A := λ objects, Some (Ok a, objects).

Definition lift {A} (r : result A) : Stateful A := λ objects, Some (r, objects).

Definition bind {A B} (m : Stateful A) (k : A → Stateful B) : Stateful B :=
  λ objects,
    match m objects with
    | Some (Ok a, objects) => k a objects
    | Some (Raise e, objects) => Some (Raise e, objects)
    | None => None
    end.

Notation "x ⇚ m ;;; k" := (bind m (λ x, k))
  (at level 20, m at level 100, k at level 200, right associativity,
   format "x  ⇚  m  ;;;  '/' k").

(** A new list object, as a list display or [list(...)] makes one. *)
Definition new_list (items : list string) : Stateful reference :=
  λ objects,
    let r := fresh (dom objects) in
    Some (Ok r, <[r := ListObject items]> objects).

(** Going through an object once, as [list(x)] and [*x] do: a list hands
    out its items and stays as it is; an iterator hands out what remains of
    it and is left exhausted. *)
Definition iterate (r : reference) : Stateful (list string) :=
  λ objects,
    match objects !! r with
    | Some (ListObject items) => Some (Ok items, objects)
    | Some (IteratorObject remaining) =>
        Some (Ok remaining, <[r := IteratorObject []]> objects)
    | None => None
    end.

(** [bool(x)]. *)
Definition truth (r : reference) : Stateful bool :=
  λ objects,
    match objects !! r with
    | Some (ListObject items) => Some (Ok (bool_decide (items ≠ [])), objects)
    | Some (IteratorObject _) => Some (Ok true, objects)
    | None => None
    end.

(** The items of a list object. *)
Definition list_items (r : reference) : Stateful (list string) :=
  λ objects,
    match objects !! r with
    | Some (ListObject items) => Some (Ok items, objects)
    | _ => None
    end.

(** A list object changed in place. *)
Definition list_set (r : reference) (items : list string) : Stateful unit :=
  λ objects,
    match objects !! r with
    | Some (ListObject _) => Some (Ok tt, <[r := ListObject items]> objects)
    | _ => None
    end.

(** [list(x)]. *)
Definition list_of (r : reference) : Stateful reference :=
  items ⇚ iterate r ;;; new_list items.

(** [l[0]]. *)
Definition getitem_0 (r : reference) : Stateful string :=
  items ⇚ list_items r ;;; lift (getitem_first items).

(** [l.append(x)] and [l.extend(xs)]. *)
Definition append (r : reference) (x : string) : Stateful unit :=
  items ⇚ list_items r ;;; list_set r (items ++ [x]).

Definition extend (r : reference) (xs : list string) : Stateful unit :=
  items ⇚ list_items r ;;; list_set r (items ++ xs).

(** [a + b] on two lists. *)
Definition add (a b : reference) : Stateful reference :=
  x ⇚ list_items a ;;; y ⇚ list_items b ;;; new_list (x ++ y).

(** A plugin whose [pip_command] is a reference to a list object; [str]
    values are immutable and stay values. *)
Record t : Type := {
  name : string;
  version : option string;
  pip_command : reference;
}.

Definition package_name (self : t) : string := "ape-" +:+ name self.

Definition prepare_package_manager_args
    (self : t) (verb : string) (python_location : option string)
    (extra_args : option reference) : Stateful reference :=
  extra_args ⇚
    match extra_args with
    | Some given =>
        given_is_true ⇚ truth given ;;;
        if given_is_true then list_of given else new_list []
    | None => new_list []
    end ;;;
  command ⇚ list_of (pip_command self) ;;;
  first ⇚ getitem_0 command ;;;
  if decide (first = "uv") then
    match python_location with
    | Some (String _ _ as python_location) =>
        command ⇚ iterate command ;;;
        front ⇚ new_list (command ++ [verb; "--python"; python_location]) ;;;
        add front extra_args
    | _ =>
        command ⇚ iterate command ;;;
        extra_args ⇚ iterate extra_args ;;;
        new_list (command ++ [verb] ++ extra_args)
    end
  else
    match python_location with
    | Some (String _ _ as python_location) =>
        command ⇚ iterate command ;;;
        front ⇚ new_list (command ++ ["--python"; python_location; verb]) ;;;
        add front extra_args
    | _ =>
        command ⇚ iterate command ;;;
        extra_args ⇚ iterate extra_args ;;;
        new_list (command ++ [verb] ++ extra_args)
    end.

Definition _get_uninstall_args
    (self : t) (python_location : option string) : Stateful reference :=
  arguments ⇚
    prepare_package_manager_args self "uninstall" python_location None ;;;
  first ⇚ getitem_0 (pip_command self) ;;;
  _ ⇚ (if decide (first ≠ "uv") then append arguments "-y" else ret tt) ;;;
  _ ⇚ extend arguments [package_name self; "--quiet"] ;;;
  ret arguments.

(** The value of an [extra_args] argument that is none or a list. *)
Definition list_argument (objects : store) (argument : option reference)
    : option (option (list string)) :=
  match argument with
  | None => Some None
  | Some r =>
      match objects !! r with
      | Some (ListObject items) => Some (Some items)
      | _ => None
      end
  end.

(** A call returns a new list that holds [items], or raises, and leaves
    every object there was as it was. *)
Definition returns_new_list (objects : store) (call : Stateful reference)
    (outcome : result (list string)) : Prop :=
  ∃ r objects',
    call objects = Some (r, objects')
    ∧ objects ⊆ objects'
    ∧ match r, outcome with
      | Ok l, Ok items =>
          objects !! l = None ∧ objects' !! l = Some (ListObject items)
      | Raise e, Raise e' => e = e'
      | _, _ => False
      end.

End Objects.

(** * Properties *)

(** ** Facts about the string primitives *)

Section string_facts.
Import PyStr.

Lemma append_cons (c : ascii) (s t : string) :
  String c s +:+ t = String c (s +:+ t).
Proof. reflexivity. Qed.

Lemma take_drop (n : nat) (s : string) : take n s +:+ drop n s = s.
Proof.
  revert s. induction n as [|n IH]; intros [|c s]; simpl; try done.
  by rewrite append_cons, IH.
Qed.

Lemma has_char_index (c : ascii) (s : string) :
  has_char c s = true → ∃ i, index c s = Some i.
Proof.
  induction s as [|d s IH]; simpl; [done|].
  case_decide; [by eauto|]. intros Hc. destruct (IH Hc) as [i ->]. by eauto.
Qed.

Lemma has_char_take_below (c : ascii) (s : string) (i j : nat) :
  index c s = Some j → i ≤ j → has_char c (take i s) = false.
Proof.
  revert i j. induction s as [|d s IH]; intros [|i] j; simpl; try done.
  case_decide; [intros [= <-]; lia|].
  destruct (index c s) as [k|] eqn:Hk; simpl; [|done].
  intros [= <-] Hle. apply (IH i k); [done | lia].
Qed.

Lemma has_char_take_absent (c : ascii) (s : string) (i : nat) :
  has_char c s = false → has_char c (take i s) = false.
Proof.
  revert i. induction s as [|d s IH]; intros [|i]; simpl; try done.
  case_decide; [done|]. apply IH.
Qed.

Lemma drop_index (c : ascii) (s : string) (i : nat) :
  index c s = Some i → ∃ rest, drop i s = String c rest.
Proof.
  revert i. induction s as [|d s IH]; intros i; simpl; [done|].
  case_decide as Hd; [intros [= <-]; subst; by eauto|].
  destruct (index c s) as [k|]; simpl; [|done].
  intros [= <-]. simpl. by apply IH.
Qed.

Lemma strip_prefix_Some (p s rest : string) :
  strip_prefix p s = Some rest → s = p +:+ rest.
Proof.
  revert s. induction p as [|a p IH]; intros [|b s]; simpl;
    try done; try (by intros [= <-]).
  case_decide; [|done]. intros Hp. subst. by rewrite append_cons, (IH s Hp).
Qed.

Lemma strip_prefix_length (p s rest : string) :
  strip_prefix p s = Some rest →
  String.length s = String.length p + String.length rest.
Proof.
  revert s. induction p as [|a p IH]; intros [|b s]; simpl;
    try done; try (by intros [= <-]).
  case_decide; [|done]. intros Hp. by rewrite (IH s Hp).
Qed.

Lemma all_chars_app (P : ascii → bool) (s t : string) :
  all_chars P (s +:+ t) = all_chars P s && all_chars P t.
Proof.
  induction s as [|c s IH]; [done|].
  rewrite append_cons. simpl. by rewrite IH, andb_assoc.
Qed.

Lemma has_char_app (c : ascii) (s t : string) :
  has_char c (s +:+ t) = has_char c s || has_char c t.
Proof.
  induction s as [|d s IH]; [done|].
  rewrite append_cons. simpl. by case_decide.
Qed.

(** [replace] has the recursive equations of [str.replace]: the bound it
    recurses on is never reached. *)
Lemma replace_upto_enough (n m : nat) (old new s : string) :
  old ≠ "" → String.length s ≤ n → String.length s ≤ m →
  replace_upto n old new s = replace_upto m old new s.
Proof.
  intros Hold. revert m s.
  induction n as [|n IH]; intros [|m] s Hn Hm; simpl; try done.
  - destruct s; [|simpl in Hn; lia]. by destruct old.
  - destruct s; [|simpl in Hm; lia]. by destruct old.
  - destruct (strip_prefix old s) as [rest|] eqn:Hrest.
    + apply strip_prefix_length in Hrest as Hlen.
      assert (0 < String.length old) by (destruct old; simpl; [done | lia]).
      f_equal. apply IH; lia.
    + destruct s as [|c s]; [done|]. simpl in Hn, Hm. f_equal. apply IH; lia.
Qed.

Lemma replace_equation (old new s : string) :
  old ≠ "" →
  replace old new s
  = match strip_prefix old s with
    | Some rest => new +:+ replace old new rest
    | None =>
        match s with
        | EmptyString => EmptyString
        | String c s' => String c (replace old new s')
        end
    end.
Proof.
  intros Hold. unfold replace. destruct s as [|c s]; simpl.
  { by destruct old. }
  destruct (strip_prefix old (String c s)) as [rest|] eqn:Hrest; [|done].
  f_equal. apply strip_prefix_length in Hrest as Hlen. simpl in Hlen.
  assert (0 < String.length old) by (destruct old; simpl; [done | lia]).
  apply replace_upto_enough; [done | lia | lia].
Qed.

(** Likewise for [split]. *)
Lemma split_upto_enough (n m : nat) (sep s : string) :
  sep ≠ "" → String.length s < n → String.length s < m →
  split_upto n sep s = split_upto m sep s.
Proof.
  intros Hsep. revert m s.
  induction n as [|n IH]; intros [|m] s Hn Hm; try lia. simpl.
  destruct (strip_prefix sep s) as [rest|] eqn:Hrest.
  - apply strip_prefix_length in Hrest as Hlen.
    assert (0 < String.length sep) by (destruct sep; simpl; [done | lia]).
    f_equal. apply IH; lia.
  - destruct s as [|c s]; [done|]. simpl in Hn, Hm.
    by rewrite (IH m s) by lia.
Qed.

Lemma split_equation (sep s : string) :
  sep ≠ "" →
  split sep s
  = match strip_prefix sep s with
    | Some rest => EmptyString :: split sep rest
    | None =>
        match s with
        | EmptyString => [EmptyString]
        | String c s' =>
            match split sep s' with
            | h :: t => String c h :: t
            | [] => [String c EmptyString]
            end
        end
    end.
Proof.
  intros Hsep. unfold split at 1. cbn [split_upto].
  destruct (strip_prefix sep s) as [rest|] eqn:Hrest.
  - apply strip_prefix_length in Hrest as Hlen.
    assert (0 < String.length sep) by (destruct sep; simpl; [done | lia]).
    f_equal. unfold split. apply split_upto_enough; [done | lia | lia].
  - by destruct s.
Qed.

Lemma all_chars_replace_upto (P : ascii → bool) (n : nat) (old new s : string) :
  all_chars P new = true → all_chars P s = true →
  all_chars P (replace_upto n old new s) = true.
Proof.
  intros Hnew. revert s. induction n as [|n IH]; intros s Hs; simpl; [done|].
  destruct (strip_prefix old s) as [rest|] eqn:Hrest.
  - apply strip_prefix_Some in Hrest. subst s.
    rewrite all_chars_app in Hs. apply andb_true_iff in Hs as [_ Hs].
    rewrite all_chars_app, Hnew. by apply IH.
  - destruct s as [|c s]; [done|]. simpl in *.
    apply andb_true_iff in Hs as [-> Hs]. by apply IH.
Qed.

Lemma has_char_replace_upto (c : ascii) (n : nat) (old new s : string) :
  has_char c old = false → has_char c s = true →
  has_char c (replace_upto n old new s) = true.
Proof.
  intros Hold. revert s. induction n as [|n IH]; intros s Hs; simpl; [done|].
  destruct (strip_prefix old s) as [rest|] eqn:Hrest.
  - apply strip_prefix_Some in Hrest. subst s.
    rewrite has_char_app, Hold in Hs. simpl in Hs.
    rewrite has_char_app, (IH rest Hs). apply orb_true_r.
  - destruct s as [|d s]; [done|]. simpl in *.
    case_decide; [done|]. by apply IH.
Qed.

Lemma contains_startswith (sub s : string) :
  startswith s sub = true → contains sub s = true.
Proof. intros H. destruct s; simpl; by rewrite H. Qed.

Lemma startswith_append (s p : string) :
  startswith s p = true → ∃ rest, s = p +:+ rest.
Proof.
  unfold startswith. intros [rest H]%bool_decide_eq_true.
  exists rest. by apply strip_prefix_Some.
Qed.

Lemma contains_all_chars (P : ascii → bool) (sub s : string) :
  contains sub s = true → all_chars P s = true → all_chars P sub = true.
Proof.
  induction s as [|c s IH]; simpl.
  - destruct (startswith "" sub) eqn:Hsw; [|done].
    apply startswith_append in Hsw as [rest Hrest]. intros _ _.
    destruct sub; [done|]. by rewrite append_cons in Hrest.
  - destruct (startswith (String c s) sub) eqn:Hsw.
    + apply startswith_append in Hsw as [rest Hrest]. intros _ Hall.
      change (all_chars P (String c s) = true) in Hall.
      rewrite Hrest, all_chars_app in Hall. by apply andb_true_iff in Hall as [? _].
    + intros Hsub [_ Hall]%andb_true_iff. by apply IH.
Qed.

Lemma contains_has_char (c : ascii) (sub s : string) :
  contains sub s = true → has_char c sub = true → has_char c s = true.
Proof.
  intros Hsub Hc.
  destruct (has_char c s) eqn:Hs; [done|].
  assert (all_chars (λ d, negb (bool_decide (d = c))) s = true) as Hall.
  { clear Hsub. induction s as [|d s IH]; simpl in *; [done|].
    case_decide; [done|]. rewrite bool_decide_eq_false_2 by done. by apply IH. }
  pose proof (contains_all_chars _ sub s Hsub Hall) as Hno.
  clear -Hc Hno. induction sub as [|d sub IH]; simpl in *; [done|].
  apply andb_true_iff in Hno as [Hd Hno].
  case_decide; [by rewrite bool_decide_eq_true_2 in Hd|]. by apply IH.
Qed.

Lemma all_chars_impl (P Q : ascii → bool) (s : string) :
  (∀ c, P c = true → Q c = true) →
  all_chars P s = true → all_chars Q s = true.
Proof.
  intros HPQ. induction s as [|c s IH]; simpl; [done|].
  intros [Hc Hs]%andb_true_iff. by rewrite (HPQ c Hc), IH.
Qed.

Lemma lstrip_no_space (s : string) :
  all_chars (λ c, negb (isspace c)) s = true → lstrip s = s.
Proof.
  destruct s as [|c s]; simpl; [done|].
  intros [Hc _]%andb_true_iff. by destruct (isspace c).
Qed.

Lemma rstrip_no_space (s : string) :
  all_chars (λ c, negb (isspace c)) s = true → rstrip s = s.
Proof.
  induction s as [|c s IH]; simpl; [done|].
  intros [Hc Hs]%andb_true_iff. rewrite (IH Hs).
  destruct s; [|done]. by destruct (isspace c).
Qed.

Lemma strip_no_space (s : string) :
  all_chars (λ c, negb (isspace c)) s = true → strip s = s.
Proof.
  intros Hs. unfold strip. by rewrite (lstrip_no_space s Hs), rstrip_no_space.
Qed.

Lemma has_char_lstrip (c : ascii) (s : string) :
  isspace c = false → has_char c s = true → has_char c (lstrip s) = true.
Proof.
  intros Hc. induction s as [|d s IH]; simpl; [done|].
  case_decide as Hd.
  - subst d. rewrite Hc. simpl. by rewrite decide_True.
  - intros Hs. destruct (isspace d); [by apply IH|].
    simpl. by rewrite decide_False.
Qed.

Lemma has_char_rstrip (c : ascii) (s : string) :
  isspace c = false → has_char c s = true → has_char c (rstrip s) = true.
Proof.
  intros Hc. induction s as [|d s IH]; simpl; [done|].
  case_decide as Hd.
  - subst d. intros _. rewrite Hc.
    destruct (rstrip s); simpl; by rewrite decide_True.
  - intros Hs. specialize (IH Hs).
    destruct (rstrip s); [done|]. simpl. by rewrite decide_False.
Qed.

Lemma has_char_strip (c : ascii) (s : string) :
  isspace c = false → has_char c s = true → has_char c (strip s) = true.
Proof.
  intros Hc Hs. unfold strip. by apply has_char_rstrip, has_char_lstrip.
Qed.

Lemma foldl_min_le (i : nat) (l : list nat) :
  foldl Nat.min i l ≤ i ∧ Forall (λ j, foldl Nat.min i l ≤ j) l.
Proof.
  revert i. induction l as [|k l IH]; intros i; simpl; [by split|].
  destruct (IH (i `min` k)) as [Hle Hall]. split; [lia|].
  constructor; [lia | done].
Qed.

Lemma foldl_min_elem (i : nat) (l : list nat) : foldl Nat.min i l ∈ i :: l.
Proof.
  revert i. induction l as [|k l IH]; intros i; simpl; [set_solver|].
  specialize (IH (i `min` k)).
  apply elem_of_cons in IH as [->|IH]; [|set_solver].
  destruct (Nat.min_spec i k) as [[_ ->]|[_ ->]]; set_solver.
Qed.

End string_facts.

(** ** Splitting a name from its version constraint *)

Section split_name_and_version.
Import PyStr.

(** The index [_split_name_and_version] cuts at: no character of [chars]
    occurs before it and one of them stands at it. *)
Lemma cut_at_first_constraint (value : string) (chars : list ascii)
    (i : nat) (others : list nat) :
  omap (λ c, index c value) (filter (λ c, has_char c value) chars)
  = i :: others →
  (∀ c, c ∈ chars → has_char c (take (foldl Nat.min i others) value) = false)
  ∧ ∃ c rest, c ∈ chars ∧ drop (foldl Nat.min i others) value = String c rest.
Proof.
  intros Hidx. split.
  - intros c Hc. destruct (has_char c value) eqn:Hin;
      [|by apply has_char_take_absent].
    destruct (has_char_index c value Hin) as [j Hj].
    apply (has_char_take_below c value _ j Hj).
    assert (j ∈ i :: others) as Hmem.
    { rewrite <- Hidx. apply list_elem_of_omap. exists c. split; [|done].
      apply list_elem_of_filter. split; [by rewrite Hin | done]. }
    destruct (foldl_min_le i others) as [Hle Hall].
    apply elem_of_cons in Hmem as [->|Hmem]; [done|].
    by apply (proj1 (Forall_forall _ _) Hall).
  - pose proof (foldl_min_elem i others) as Hmem. rewrite <- Hidx in Hmem.
    apply list_elem_of_omap in Hmem as (c & Hc & Hci).
    apply list_elem_of_filter in Hc as [_ Hc].
    destruct (drop_index c value _ Hci) as [rest Hrest]. by eauto.
Qed.

(** C9.  For a value without [@]: when it contains one of [=], [<], [>], the
    result is a name and a version whose concatenation is the value, where
    the name contains none of the three characters and the version starts
    with one of them (the name is the prefix before their first occurrence);
    when it contains none of them, the result is the value and [None]. *)
Theorem _split_name_and_version_at_first_constraint (value : string) :
  has_char "@" value = false →
  (existsb (λ c, has_char c value) ["="; "<"; ">"]%char = true →
   ∃ name version,
     _split_name_and_version value = Ok (name, Some version)
     ∧ name +:+ version = value
     ∧ (∀ c, c ∈ ["="; "<"; ">"]%char → has_char c name = false)
     ∧ ∃ c rest, c ∈ ["="; "<"; ">"]%char ∧ version = String c rest)
  ∧ (existsb (λ c, has_char c value) ["="; "<"; ">"]%char = false →
     _split_name_and_version value = Ok (value, None)).
Proof.
  intros Hat. unfold _split_name_and_version. rewrite Hat.
  split.
  - intros Hsome.
    destruct (filter (λ c, has_char c value) ["="; "<"; ">"]%char)
      as [|c0 chars] eqn:Hchars.
    { apply existsb_exists in Hsome as (c & Hc & Hin).
      assert (c ∈ filter (λ c, has_char c value) ["="; "<"; ">"]%char) as Hmem.
      { apply list_elem_of_filter. split; [by rewrite Hin|].
        by apply list_elem_of_In. }
      rewrite Hchars in Hmem. by apply elem_of_nil in Hmem. }
    destruct (omap (λ c, index c value) (c0 :: chars)) as [|i others] eqn:Hidx.
    { assert (c0 ∈ filter (λ c, has_char c value) ["="; "<"; ">"]%char) as Hmem
        by (rewrite Hchars; set_solver).
      apply list_elem_of_filter in Hmem as [Hin _].
      destruct (has_char_index c0 value) as [j Hj]; [by destruct (has_char c0 value)|].
      simpl in Hidx. by rewrite Hj in Hidx. }
    rewrite <- Hchars in Hidx.
    destruct (cut_at_first_constraint value _ i others Hidx)
      as [Hname (c & rest & Hc & Hrest)].
    eexists _, _. split; [reflexivity|]. split; [apply take_drop|].
    split; [done|]. by eauto.
  - intros Hnone.
    destruct (filter (λ c, has_char c value) ["="; "<"; ">"]%char)
      as [|c0 chars] eqn:Hchars; [done|].
    assert (c0 ∈ filter (λ c, has_char c value) ["="; "<"; ">"]%char) as Hmem
      by (rewrite Hchars; set_solver).
    apply list_elem_of_filter in Hmem as [Hin Hc0].
    assert (existsb (λ c, has_char c value) ["="; "<"; ">"]%char = true);
      [|congruence].
    apply existsb_exists. exists c0. split; [by apply list_elem_of_In|].
    by destruct (has_char c0 value).
Qed.

Lemma _split_name_and_version_at_first_constraint_witness :
  (∃ name version,
     _split_name_and_version "ape-foo>=0.8,<0.9" = Ok (name, Some version)
     ∧ name +:+ version = "ape-foo>=0.8,<0.9"
     ∧ (∀ c, c ∈ ["="; "<"; ">"]%char → has_char c name = false)
     ∧ ∃ c rest, c ∈ ["="; "<"; ">"]%char ∧ version = String c rest)
  ∧ _split_name_and_version "ape-foo" = Ok ("ape-foo", None).
Proof.
  split.
  - apply (proj1 (_split_name_and_version_at_first_constraint
                    "ape-foo>=0.8,<0.9" eq_refl)).
    reflexivity.
  - apply (proj2 (_split_name_and_version_at_first_constraint
                    "ape-foo" eq_refl)).
    reflexivity.
Defined.

End split_name_and_version.

(** ** The package-manager command builders *)

Section command_builders.
Import PluginMetadata.

Lemma getitem_first_cons {A} (x : A) (l : list A) :
  getitem_first (x :: l) = Ok x.
Proof. reflexivity. Qed.

(** C5.  For every verb, python location and extra arguments: with [uv] as
    the first element of the base command the result is the base command,
    the verb, [--python] and the location, then the extra arguments; with
    another package manager [--python] and the location come before the
    verb; with no location (or an empty one) both give the base command,
    the verb and the extra arguments. *)
Theorem prepare_package_manager_args_layout
    (self : t) (verb : string) (python_location : option string)
    (extra_args : option (list string)) (first : string) (rest : list string) :
  pip_command self = first :: rest →
  let base := pip_command self in
  let extra := default [] extra_args in
  (∀ c loc, python_location = Some (String c loc) → first = "uv" →
     prepare_package_manager_args self verb python_location extra_args
     = Ok (base ++ [verb] ++ ["--python"; String c loc] ++ extra))
  ∧ (∀ c loc, python_location = Some (String c loc) → first ≠ "uv" →
     prepare_package_manager_args self verb python_location extra_args
     = Ok (base ++ ["--python"; String c loc] ++ [verb] ++ extra))
  ∧ (python_location = None ∨ python_location = Some "" →
     prepare_package_manager_args self verb python_location extra_args
     = Ok (base ++ [verb] ++ extra)).
Proof.
  intros Hcmd base extra. subst base extra.
  unfold prepare_package_manager_args. rewrite Hcmd, getitem_first_cons. simpl.
  split; [|split].
  - intros c loc -> ->. rewrite decide_True by done.
    by rewrite <- (assoc_L (++)).
  - intros c loc -> Hne. rewrite decide_False by done.
    by rewrite <- (assoc_L (++)).
  - intros [-> | ->]; by destruct (decide (first = "uv")).
Qed.

Lemma prepare_package_manager_args_layout_witness :
  prepare_package_manager_args
    {| name := "foo"; version := None; pip_command := ["uv"; "pip"] |}
    "install" (Some "/usr/bin/python3") (Some ["--user"])
  = Ok ["uv"; "pip"; "install"; "--python"; "/usr/bin/python3"; "--user"]
  ∧ prepare_package_manager_args
      {| name := "foo"; version := None;
         pip_command := ["python"; "-m"; "pip"] |}
      "install" (Some "/usr/bin/python3") (Some ["--user"])
    = Ok ["python"; "-m"; "pip"; "--python"; "/usr/bin/python3"; "install";
          "--user"]
  ∧ prepare_package_manager_args
      {| name := "foo"; version := None; pip_command := ["uv"; "pip"] |}
      "install" None (Some ["--user"])
    = Ok ["uv"; "pip"; "install"; "--user"].
Proof.
  split; [|split].
  - exact (proj1 (prepare_package_manager_args_layout
             {| name := "foo"; version := None; pip_command := ["uv"; "pip"] |}
             "install" (Some "/usr/bin/python3") (Some ["--user"])
             "uv" ["pip"] eq_refl)
           _ _ eq_refl eq_refl).
  - refine (proj1 (proj2 (prepare_package_manager_args_layout
             {| name := "foo"; version := None;
                pip_command := ["python"; "-m"; "pip"] |}
             "install" (Some "/usr/bin/python3") (Some ["--user"])
             "python" ["-m"; "pip"] eq_refl))
           _ _ eq_refl _).
    discriminate.
  - exact (proj2 (proj2 (prepare_package_manager_args_layout
             {| name := "foo"; version := None; pip_command := ["uv"; "pip"] |}
             "install" None (Some ["--user"])
             "uv" ["pip"] eq_refl))
           (or_introl eq_refl)).
Defined.

(** C6.  The uninstall arguments are the [uninstall] package-manager
    arguments, then [-y] exactly when the first element of the pip command
    is not [uv], and they always end with the package name followed by
    [--quiet]. *)
Theorem _get_uninstall_args_layout
    (self : t) (python_location : option string)
    (first : string) (rest : list string) :
  pip_command self = first :: rest →
  ∃ arguments,
    prepare_package_manager_args self "uninstall" python_location None
    = Ok arguments
    ∧ (first ≠ "uv" →
       _get_uninstall_args self python_location
       = Ok (arguments ++ ["-y"] ++ [package_name self; "--quiet"]))
    ∧ (first = "uv" →
       _get_uninstall_args self python_location
       = Ok (arguments ++ [package_name self; "--quiet"]))
    ∧ ∃ front,
        _get_uninstall_args self python_location
        = Ok (front ++ [package_name self; "--quiet"]).
Proof.
  intros Hcmd. unfold _get_uninstall_args.
  destruct (prepare_package_manager_args self "uninstall" python_location None)
    as [arguments|e] eqn:Hargs.
  - exists arguments. rewrite Hcmd. simpl.
    split; [done|]. split; [|split].
    + intros Hne. rewrite decide_True by done. by rewrite <- (assoc_L (++)).
    + intros ->. by rewrite decide_False by (intros H; by apply H).
    + eexists. reflexivity.
  - unfold prepare_package_manager_args in Hargs.
    rewrite Hcmd in Hargs. simpl in Hargs. by case_decide.
Qed.

Lemma _get_uninstall_args_layout_witness :
  ∃ arguments,
    prepare_package_manager_args
      {| name := "foo"; version := None;
         pip_command := ["python"; "-m"; "pip"] |}
      "uninstall" None None = Ok arguments
    ∧ _get_uninstall_args
        {| name := "foo"; version := None;
           pip_command := ["python"; "-m"; "pip"] |} None
      = Ok (arguments ++ ["-y"] ++ ["ape-foo"; "--quiet"]).
Proof.
  destruct (_get_uninstall_args_layout
              {| name := "foo"; version := None;
                 pip_command := ["python"; "-m"; "pip"] |}
              None "python" ["-m"; "pip"] eq_refl)
    as (arguments & Hargs & Hy & _).
  exists arguments. split; [exact Hargs|]. apply Hy. discriminate.
Defined.

End command_builders.

(** ** The command builders on shared objects *)

Section command_builders_on_objects.
Import Objects.

Lemma fresh_lookup (objects : store) : objects !! fresh (dom objects) = None.
Proof. apply not_elem_of_dom, is_fresh. Qed.

Lemma new_list_subseteq (objects : store) (items : list string) :
  objects ⊆ <[fresh (dom objects) := ListObject items]> objects.
Proof. apply insert_subseteq, fresh_lookup. Qed.

Lemma lookup_new_list (objects : store) (items : list string) (r : reference)
    (o : object) :
  objects !! r = Some o →
  <[fresh (dom objects) := ListObject items]> objects !! r = Some o.
Proof.
  intros Hr. rewrite lookup_insert_ne; [done|].
  intros <-. by rewrite fresh_lookup in Hr.
Qed.

Lemma bind_Ok {A B} (m : Stateful A) (k : A → Stateful B)
    (objects objects' : store) (a : A) :
  m objects = Some (Ok a, objects') → bind m k objects = k a objects'.
Proof. intros Hm. unfold bind. by rewrite Hm. Qed.

Lemma new_list_run (items : list string) (objects : store) :
  new_list items objects
  = Some (Ok (fresh (dom objects)),
          <[fresh (dom objects) := ListObject items]> objects).
Proof. done. Qed.

Lemma iterate_list (r : reference) (items : list string) (objects : store) :
  objects !! r = Some (ListObject items) →
  iterate r objects = Some (Ok items, objects).
Proof. intros Hr. unfold iterate. by rewrite Hr. Qed.

Lemma list_items_run (r : reference) (items : list string) (objects : store) :
  objects !! r = Some (ListObject items) →
  list_items r objects = Some (Ok items, objects).
Proof. intros Hr. unfold list_items. by rewrite Hr. Qed.

Lemma list_of_list (r : reference) (items : list string) (objects : store) :
  objects !! r = Some (ListObject items) →
  list_of r objects
  = Some (Ok (fresh (dom objects)),
          <[fresh (dom objects) := ListObject items]> objects).
Proof.
  intros Hr. unfold list_of. by rewrite (bind_Ok _ _ _ _ _ (iterate_list _ _ _ Hr)).
Qed.

Lemma add_run (a b : reference) (x y : list string) (objects : store) :
  objects !! a = Some (ListObject x) → objects !! b = Some (ListObject y) →
  add a b objects
  = Some (Ok (fresh (dom objects)),
          <[fresh (dom objects) := ListObject (x ++ y)]> objects).
Proof.
  intros Ha Hb. unfold add.
  rewrite (bind_Ok _ _ _ _ _ (list_items_run _ _ _ Ha)).
  by rewrite (bind_Ok _ _ _ _ _ (list_items_run _ _ _ Hb)).
Qed.

Lemma extend_run (r : reference) (items xs : list string) (objects : store) :
  objects !! r = Some (ListObject items) →
  extend r xs objects
  = Some (Ok tt, <[r := ListObject (items ++ xs)]> objects).
Proof.
  intros Hr. unfold extend.
  rewrite (bind_Ok _ _ _ _ _ (list_items_run _ _ _ Hr)).
  unfold list_set. by rewrite Hr.
Qed.

(** [extra_args = list(extra_args) if extra_args else []] makes a new list
    of the items of a list that is given. *)
Lemma extra_args_copied
    (objects : store) (extra_args : option reference)
    (extra : option (list string)) :
  list_argument objects extra_args = Some extra →
  match extra_args with
  | Some given =>
      given_is_true ⇚ truth given ;;;
      if given_is_true then list_of given else new_list []
  | None => new_list []
  end objects
  = Some (Ok (fresh (dom objects)),
          <[fresh (dom objects) := ListObject (default [] extra)]> objects).
Proof.
  unfold list_argument. destruct extra_args as [given|]; [|by intros [= <-]].
  destruct (objects !! given) as [[items|]|] eqn:Hgiven; [|done|done].
  intros [= <-]. unfold bind at 1, truth. rewrite Hgiven.
  case_bool_decide as Hitems.
  - by apply list_of_list.
  - by assert (items = []) as -> by by destruct items.
Qed.

(** On a store where the [pip_command] of the plugin is a list and
    [extra_args] is none or a list, [prepare_package_manager_args] returns a
    new list, which holds what the function of the values gives, and leaves
    every object there was as it was. *)
Lemma prepare_package_manager_args_returns
    (objects : store) (self : Objects.t) (verb : string)
    (python_location : option string) (extra_args : option reference)
    (command : list string) (extra : option (list string)) :
  objects !! pip_command self = Some (ListObject command) →
  list_argument objects extra_args = Some extra →
  returns_new_list objects
    (Objects.prepare_package_manager_args
       self verb python_location extra_args)
    (PluginMetadata.prepare_package_manager_args
       {| PluginMetadata.name := name self;
          PluginMetadata.version := version self;
          PluginMetadata.pip_command := command |}
       verb python_location extra).
Proof.
  intros Hcommand Hextra.
  unfold Objects.prepare_package_manager_args, returns_new_list.
  rewrite (bind_Ok _ _ _ _ _ (extra_args_copied _ _ _ Hextra)).
  set (r1 := fresh (dom objects)).
  set (objects1 := <[r1 := ListObject (default [] extra)]> objects).
  assert (objects ⊆ objects1) as Hsub1 by apply new_list_subseteq.
  assert (objects1 !! r1 = Some (ListObject (default [] extra))) as Hr1
    by apply lookup_insert_eq.
  rewrite (bind_Ok _ _ _ _ _
             (list_of_list _ _ objects1 (lookup_weaken _ _ _ _ Hcommand Hsub1))).
  set (r2 := fresh (dom objects1)).
  set (objects2 := <[r2 := ListObject command]> objects1).
  assert (objects1 ⊆ objects2) as Hsub2 by apply new_list_subseteq.
  assert (objects2 !! r2 = Some (ListObject command)) as Hr2
    by apply lookup_insert_eq.
  unfold getitem_0.
  unfold bind at 1. rewrite (bind_Ok _ _ _ _ _ (list_items_run _ _ _ Hr2)).
  unfold PluginMetadata.prepare_package_manager_args.
  cbn [PluginMetadata.pip_command].
  destruct command as [|first rest]; cbn [getitem_first lift rbind].
  { eexists _, _. split; [done|]. split; [by etrans|done]. }
  assert (∀ items,
            ∃ r objects',
              new_list items objects2 = Some (r, objects')
              ∧ objects ⊆ objects'
              ∧ match r with
                | Ok l =>
                    objects !! l = None
                    ∧ objects' !! l = Some (ListObject items)
                | Raise _ => False
                end) as Hlast.
  { intros items. eexists _, _. split; [done|].
    split; [etrans; [|apply new_list_subseteq]; by etrans|].
    split; [|apply lookup_insert_eq].
    eapply lookup_weaken_None; [apply fresh_lookup|by etrans]. }
  assert (∀ front,
            ∃ r objects',
              (front ⇚ new_list front ;;; add front r1) objects2
              = Some (r, objects')
              ∧ objects ⊆ objects'
              ∧ match r with
                | Ok l =>
                    objects !! l = None
                    ∧ objects' !! l
                      = Some (ListObject (front ++ default [] extra))
                | Raise _ => False
                end) as Hadd.
  { intros front. rewrite (bind_Ok _ _ _ _ _ (new_list_run _ _)).
    set (r3 := fresh (dom objects2)).
    set (objects3 := <[r3 := ListObject front]> objects2).
    assert (objects2 ⊆ objects3) as Hsub3 by apply new_list_subseteq.
    rewrite (add_run r3 r1 front (default [] extra) objects3).
    2:{ apply lookup_insert_eq. }
    2:{ eapply lookup_weaken; [exact Hr1|by etrans]. }
    eexists _, _. split; [done|].
    split; [etrans; [|apply new_list_subseteq]; etrans; [|done]; by etrans|].
    split; [|apply lookup_insert_eq].
    eapply lookup_weaken_None; [apply fresh_lookup|].
    etrans; [|done]. by etrans. }
  assert (iterate r2 objects2 = Some (Ok (first :: rest), objects2)) as Hcmd
    by by apply iterate_list.
  assert (iterate r1 objects2 = Some (Ok (default [] extra), objects2)) as Hext.
  { apply iterate_list. by eapply lookup_weaken. }
  destruct (decide (first = "uv")), python_location as [[|c location]|];
    rewrite (bind_Ok _ _ _ _ _ Hcmd);
    first [ rewrite (bind_Ok _ _ _ _ _ Hext); apply Hlast
          | apply Hadd ].
Qed.

Lemma _get_uninstall_args_returns
    (objects : store) (self : Objects.t) (python_location : option string)
    (command : list string) :
  objects !! pip_command self = Some (ListObject command) →
  returns_new_list objects
    (Objects._get_uninstall_args self python_location)
    (PluginMetadata._get_uninstall_args
       {| PluginMetadata.name := name self;
          PluginMetadata.version := version self;
          PluginMetadata.pip_command := command |}
       python_location).
Proof.
  intros Hcommand.
  destruct (prepare_package_manager_args_returns
              objects self "uninstall" python_location None command None
              Hcommand eq_refl)
    as (r & objects1 & Hrun & Hsub1 & Hr).
  unfold Objects._get_uninstall_args, PluginMetadata._get_uninstall_args,
    returns_new_list.
  unfold bind at 1. rewrite Hrun.
  destruct r as [arguments|e],
    (PluginMetadata.prepare_package_manager_args _ _ _ _) as [items|e'];
    try done; cbn [rbind].
  2:{ by eexists _, _. }
  destruct Hr as [Hnew Harguments].
  unfold getitem_0.
  unfold bind at 1.
  rewrite (bind_Ok _ _ _ _ _
             (list_items_run _ _ _ (lookup_weaken _ _ _ _ Hcommand Hsub1))).
  cbn [PluginMetadata.pip_command].
  destruct command as [|first rest]; cbn [getitem_first lift rbind].
  { by eexists _, _. }
  assert (∀ items' objects2,
            objects ⊆ objects2 →
            objects2 !! arguments = Some (ListObject items') →
            ∃ r objects',
              (_ ⇚ extend arguments [package_name self; "--quiet"] ;;;
               ret arguments) objects2 = Some (r, objects')
              ∧ objects ⊆ objects'
              ∧ match r with
                | Ok l =>
                    objects !! l = None
                    ∧ objects' !! l
                      = Some (ListObject
                                (items' ++ [package_name self; "--quiet"]))
                | Raise _ => False
                end) as Hextend.
  { intros items' objects2 Hsub2 Hitems'.
    rewrite (bind_Ok _ _ _ _ _ (extend_run _ _ _ _ Hitems')).
    eexists _, _. split; [done|].
    split; [by apply insert_subseteq_r|].
    split; [done|apply lookup_insert_eq]. }
  destruct (decide (first ≠ "uv")).
  - unfold append. unfold bind at 1.
    rewrite (bind_Ok _ _ _ _ _ (list_items_run _ _ _ Harguments)).
    unfold list_set. rewrite Harguments.
    apply Hextend; [by apply insert_subseteq_r|apply lookup_insert_eq].
  - unfold bind at 1, ret at 1. by apply Hextend.
Qed.




End command_builders_on_objects.

(** ** Logged computations *)

Lemma lbind_outcome {A B} (m : Logged A) (k : A → Logged B) :
  (lbind m k).2 = rbind (m.2) (λ a, (k a).2).
Proof.
  destruct m as [log [a|e]]; unfold lbind; simpl; [|done]. by destruct (k a).
Qed.

Lemma lift_outcome {A} (r : result A) : (lift r).2 = r.
Proof. done. Qed.

Lemma lret_outcome {A} (a : A) : (lret a).2 = Ok a.
Proof. done. Qed.

Lemma logger_outcome (level : LogLevel) (msg : string) :
  (logger level msg).2 = Ok tt.
Proof. done. Qed.

(** Reduce the outcome of a logged computation to a plain [result]. *)
Ltac outcome :=
  repeat first
    [ rewrite lbind_outcome | rewrite lift_outcome | rewrite logger_outcome
    | rewrite lret_outcome | progress cbn [rbind] ].

(** ** Installing and upgrading *)

Section prepare_install.
Import PluginMetadata.

(** C3.  [_prepare_install] returns [None] for a core plugin, and for a
    plugin with a version when [upgrade] is set; every dictionary it returns
    holds a list of pip arguments under the key [args]. *)
Theorem _prepare_install_none_or_args
    (E : Externals) (self : t) (upgrade skip_confirmation : bool)
    (python_location : option string) :
  (in_core self = true →
   (_prepare_install E self upgrade skip_confirmation python_location).2
   = Ok None)
  ∧ (version self ≠ None → upgrade = true →
     (_prepare_install E self upgrade skip_confirmation python_location).2
     = Ok None)
  ∧ (∀ d,
       (_prepare_install E self upgrade skip_confirmation python_location).2
       = Ok (Some d) →
       ∃ pip_arguments, d !! "args" = Some (ListOfStr pip_arguments)).
Proof.
  unfold _prepare_install. split; [|split].
  - intros ->. reflexivity.
  - intros Hv ->. destruct (in_core self); [reflexivity|].
    rewrite bool_decide_eq_true_2 by done. reflexivity.
  - intros d. destruct (in_core self); [discriminate|].
    destruct (bool_decide (version self ≠ None) && upgrade); [discriminate|].
    destruct (is_third_party E self); outcome;
      (destruct (prepare_package_manager_args self "install" python_location None)
         as [pip_arguments|e]; outcome; [|discriminate]);
      (destruct upgrade;
       [ outcome; intros [= <-]; eexists; apply lookup_insert_eq | ]);
      (destruct (can_install E self && _); outcome; [|discriminate]);
      (destruct (install_str E self) as [install|e]; outcome; [|discriminate]);
      intros [= <-]; eexists; apply lookup_insert_eq.
Qed.

Lemma _prepare_install_none_or_args_witness :
  (_prepare_install Sample.externals
     {| name := "test"; version := None; pip_command := ["uv"; "pip"] |}
     false false None).2 = Ok None
  ∧ (_prepare_install Sample.externals
       {| name := "foo"; version := Some "0.8.1"; pip_command := ["uv"; "pip"] |}
       true false None).2 = Ok None
  ∧ ∃ pip_arguments,
      ((<["args" := ListOfStr ["uv"; "pip"; "install"; "ape-vyper>=0.8,<0.9";
                                "--quiet"]]>
        (<["result_handler" :=
             ModifyPluginResultHandler
               {| name := "vyper"; version := None;
                  pip_command := ["uv"; "pip"] |}]> ∅))
       : gmap string value) !! "args"
      = Some (ListOfStr pip_arguments).
Proof.
  split; [|split].
  - apply (proj1 (_prepare_install_none_or_args Sample.externals
             {| name := "test"; version := None; pip_command := ["uv"; "pip"] |}
             false false None)).
    reflexivity.
  - apply (proj1 (proj2 (_prepare_install_none_or_args Sample.externals
             {| name := "foo"; version := Some "0.8.1";
                pip_command := ["uv"; "pip"] |}
             true false None))); [discriminate | reflexivity].
  - apply (proj2 (proj2 (_prepare_install_none_or_args Sample.externals
             {| name := "vyper"; version := None; pip_command := ["uv"; "pip"] |}
             false false None))).
    reflexivity.
Defined.

(** C4.  An upgrade of a plugin that is not a core plugin and has no version
    returns the [install] package-manager arguments extended by [--upgrade],
    the package name immediately followed by Ape's version range, and
    [--quiet]; the range is [>=0.m,<0.(m+1)] for Ape 0.m and [>=M,<(M+1)] for
    Ape M with M at least 1. *)
Theorem _prepare_install_upgrade_args
    (E : Externals) (self : t) (skip_confirmation : bool) (python_location : option string)
    (pip_arguments : list string) :
  in_core self = false →
  version self = None →
  prepare_package_manager_args self "install" python_location None
  = Ok pip_arguments →
  ∃ d version_range,
    (_prepare_install E self true skip_confirmation python_location).2
    = Ok (Some d)
    ∧ d !! "args"
      = Some (ListOfStr
                (pip_arguments
                 ++ ["--upgrade"; package_name self +:+ version_range;
                     "--quiet"]))
    ∧ version_range = ApeVersion.version_range E
    ∧ (ApeVersion.major E = 0%N →
       version_range
       = ">=0." +:+ pretty (ApeVersion.minor E)
         +:+ ",<0." +:+ pretty (ApeVersion.minor E + 1)%N)
    ∧ (ApeVersion.major E ≠ 0%N →
       version_range
       = ">=" +:+ pretty (ApeVersion.major E)
         +:+ ",<" +:+ pretty (ApeVersion.major E + 1)%N).
Proof.
  intros Hcore Hversion Hargs. unfold _prepare_install.
  rewrite Hcore, Hversion.
  rewrite bool_decide_eq_false_2 by (intros H; by apply H). simpl.
  eexists _, (ApeVersion.version_range E).
  split.
  { destruct (is_third_party E self); outcome; rewrite Hargs; outcome;
      reflexivity. }
  split; [apply lookup_insert_eq|]. split; [done|].
  unfold ApeVersion.version_range. split.
  - intros H0. by rewrite bool_decide_eq_true_2.
  - intros H0. by rewrite bool_decide_eq_false_2.
Qed.

Lemma _prepare_install_upgrade_args_witness :
  ∃ d,
    (_prepare_install Sample.externals
       {| name := "foo"; version := None; pip_command := ["uv"; "pip"] |}
       true false (Some "/usr/bin/python3")).2 = Ok (Some d)
    ∧ d !! "args"
      = Some (ListOfStr
                ["uv"; "pip"; "install"; "--python"; "/usr/bin/python3";
                 "--upgrade"; "ape-foo>=0.8,<0.9"; "--quiet"]).
Proof.
  destruct (_prepare_install_upgrade_args Sample.externals
              {| name := "foo"; version := None; pip_command := ["uv"; "pip"] |}
              false (Some "/usr/bin/python3")
              ["uv"; "pip"; "install"; "--python"; "/usr/bin/python3"]
              eq_refl eq_refl eq_refl)
    as (d & version_range & Hrun & Hlookup & Hrange & _).
  exists d. split; [exact Hrun|].
  rewrite Hlookup, Hrange. reflexivity.
Defined.

End prepare_install.

(** ** Version checks *)

Section version_checks.
Import PluginMetadata.

Lemma truthy_nonempty (v : string) : v ≠ "" → truthy (Some v) = true.
Proof. by destruct v. Qed.

Lemma version_range_nonempty (E : Externals) : ApeVersion.version_range E ≠ "".
Proof.
  unfold ApeVersion.version_range. by case_bool_decide.
Qed.

Lemma normalized_specifier_nonempty (version : string) :
  version ≠ "" → normalized_specifier version ≠ "".
Proof.
  intros Hne. unfold normalized_specifier.
  by destruct (existsb _ _).
Qed.

Lemma would_get_downgraded_specs_outcome (E : Externals) spec_set :
  ApeVersion.would_get_downgraded_specs E spec_set = Ok true
  ∨ ApeVersion.would_get_downgraded_specs E spec_set = Ok false
  ∨ ApeVersion.would_get_downgraded_specs E spec_set = Raise InvalidVersion.
Proof.
  induction spec_set as [|spec rest IH]; simpl; [by auto|].
  destruct (Version E _); [|by auto]. by destruct (_ && _); auto.
Qed.

Lemma would_get_downgraded_not_PluginVersionError (E : Externals) text :
  ¬ raises_PluginVersionError (ApeVersion.would_get_downgraded E text).
Proof.
  intros (op & reason & res & H). unfold ApeVersion.would_get_downgraded in H.
  destruct (SpecifierSet E text) as [spec_set|]; [|done].
  destruct (would_get_downgraded_specs_outcome E spec_set) as [H'|[H'|H']];
    congruence.
Qed.

(** One turn of the loop of [would_get_downgraded]: the test it makes on a
    specifier whose version parses is [asks_lower_minor] for Ape 0.x and
    fails for later versions of Ape. *)
Lemma downgrade_test_true (E : Externals) spec spec_version :
  Version E (packaging.version spec) = Some spec_version →
  bool_decide (packaging.operator spec ∈ ["=="; "<"; "<="])
  && ((ApeVersion.is_pre_one E
       && bool_decide (packaging.major spec_version < ApeVersion.major E)%N)
      || (ApeVersion.is_pre_one E
          && bool_decide (packaging.minor spec_version < ApeVersion.minor E)%N))
  = true
  ↔ ApeVersion.major E = 0%N ∧ asks_lower_minor E spec.
Proof.
  intros Hparse. unfold ApeVersion.is_pre_one, asks_lower_minor.
  rewrite andb_true_iff, orb_true_iff, !andb_true_iff, !bool_decide_eq_true.
  split.
  - intros [Hop [[H0 Hlt] | [H0 Hlt]]]; [lia|]. eauto.
  - intros [H0 [Hop (v & Hv & Hlt)]]. split; [done|]. right.
    split; [done|]. congruence.
Qed.

Lemma would_get_downgraded_specs_true (E : Externals) spec_set :
  ApeVersion.would_get_downgraded_specs E spec_set = Ok true →
  ApeVersion.major E = 0%N ∧ Exists (asks_lower_minor E) spec_set.
Proof.
  induction spec_set as [|spec rest IH]; simpl; [done|].
  destruct (Version E (packaging.version spec)) as [spec_version|] eqn:Hparse;
    [|done].
  destruct (_ && _) eqn:Htest.
  - intros _. apply (downgrade_test_true E spec spec_version Hparse) in Htest.
    destruct Htest. split; [done|]. by constructor.
  - intros H. destruct (IH H). split; [done|]. by constructor 2.
Qed.

Lemma would_get_downgraded_specs_parsed (E : Externals) spec_set :
  Forall (λ spec, is_Some (Version E (packaging.version spec))) spec_set →
  (ApeVersion.major E = 0%N ∧ Exists (asks_lower_minor E) spec_set →
   ApeVersion.would_get_downgraded_specs E spec_set = Ok true)
  ∧ (ApeVersion.would_get_downgraded_specs E spec_set = Ok true
     ∨ ApeVersion.would_get_downgraded_specs E spec_set = Ok false).
Proof.
  induction 1 as [|spec rest [spec_version Hparse] _ [IHtrue IHany]]; simpl.
  { split; [|by right]. intros [_ H]. by apply Exists_nil in H. }
  rewrite Hparse.
  destruct (_ && _) eqn:Htest; [by split; [|left]|].
  split; [|done]. intros [H0 Hex]. apply IHtrue. split; [done|].
  apply Exists_cons in Hex as [Hspec|Hrest]; [|done].
  assert (true = false); [|done]. rewrite <- Htest. symmetry.
  by apply (downgrade_test_true E spec spec_version Hparse).
Qed.

(** A specifier whose version text does not parse makes the loop raise as
    soon as it is reached, whatever its operator. *)
Lemma would_get_downgraded_specs_unparsed (E : Externals) spec rest :
  Version E (packaging.version spec) = None →
  ApeVersion.would_get_downgraded_specs E (spec :: rest) = Raise InvalidVersion.
Proof. intros Hparse. simpl. by rewrite Hparse. Qed.

(** C8 (amended).  [would_get_downgraded] returns [True] only when Ape's
    major version is 0 and some specifier of the set has operator [==], [<]
    or [<=] and a version whose minor component is strictly less than Ape's
    minor version.  When the version of every specifier of the set parses,
    the call returns, it returns [True] whenever that condition holds, and
    it returns [False] when Ape's major version is at least 1. *)
Theorem would_get_downgraded_meaning (E : Externals) (text : string) :
  (ApeVersion.would_get_downgraded E text = Ok true →
   ApeVersion.major E = 0%N
   ∧ ∃ spec_set,
       SpecifierSet E text = Some spec_set
       ∧ Exists (asks_lower_minor E) spec_set)
  ∧ (∀ spec_set,
       SpecifierSet E text = Some spec_set →
       Forall (λ spec, is_Some (Version E (packaging.version spec))) spec_set →
       (ApeVersion.major E = 0%N ∧ Exists (asks_lower_minor E) spec_set →
        ApeVersion.would_get_downgraded E text = Ok true)
       ∧ (ApeVersion.would_get_downgraded E text = Ok true
          ∨ ApeVersion.would_get_downgraded E text = Ok false)
       ∧ ((1 ≤ ApeVersion.major E)%N →
          ApeVersion.would_get_downgraded E text = Ok false)).
Proof.
  unfold ApeVersion.would_get_downgraded. split.
  - destruct (SpecifierSet E text) as [spec_set|]; [|done].
    intros H. apply would_get_downgraded_specs_true in H as [H0 Hex].
    split; [done|]. by exists spec_set.
  - intros spec_set -> Hparsed.
    destruct (would_get_downgraded_specs_parsed E spec_set Hparsed)
      as [Htrue Hany].
    split; [done|]. split; [done|].
    intros Hmajor. destruct Hany as [H|H]; [|done].
    apply would_get_downgraded_specs_true in H as [H0 _]. lia.
Qed.

Lemma would_get_downgraded_meaning_witness :
  ApeVersion.would_get_downgraded Sample.externals "==0.7.1,>=0.2" = Ok true
  ∧ ApeVersion.would_get_downgraded Sample.externals_one "==0.7.1,>=0.2"
    = Ok false.
Proof.
  split.
  - apply (proj2 (would_get_downgraded_meaning Sample.externals "==0.7.1,>=0.2")
             [ {| packaging.operator := "=="; packaging.version := "0.7.1" |};
               {| packaging.operator := ">="; packaging.version := "0.2" |} ]
             eq_refl).
    + repeat constructor; by eexists.
    + split; [reflexivity|]. constructor. split; [set_solver|].
      eexists. split; [reflexivity|]. reflexivity.
  - apply (proj2 (would_get_downgraded_meaning Sample.externals_one
                    "==0.7.1,>=0.2")
             [ {| packaging.operator := "=="; packaging.version := "0.7.1" |};
               {| packaging.operator := ">="; packaging.version := "0.2" |} ]
             eq_refl).
    + repeat constructor; by eexists.
    + vm_compute. discriminate.
Defined.

(** C8 as stated fails on a wildcard specifier: [SpecifierSet] accepts
    [==0.8.*], [Version] rejects its version text [0.8.*], and for Ape 1.2
    the call raises [InvalidVersion] where [False] is claimed. *)
Lemma would_get_downgraded_wildcard_raises :
  (1 ≤ ApeVersion.major Sample.externals_one)%N
  ∧ SpecifierSet Sample.externals_one "==0.8.*"
    = Some [ {| packaging.operator := "=="; packaging.version := "0.8.*" |} ]
  ∧ Version Sample.externals_one "0.8.*" = None
  ∧ ApeVersion.would_get_downgraded Sample.externals_one "==0.8.*"
    = Raise InvalidVersion
  ∧ ApeVersion.would_get_downgraded Sample.externals_one "==0.8.*" ≠ Ok false.
Proof.
  split; [by vm_compute|]. split; [reflexivity|]. split; [reflexivity|].
  split; [reflexivity|]. discriminate.
Qed.

(** For Ape 0.8 the set [==1.*,<0.1], iterated in the order of its text, has
    a specifier that asks for a lower minor version, yet the call raises on
    the wildcard before it reaches that specifier. *)
Lemma would_get_downgraded_raises_before_match :
  ApeVersion.major Sample.externals = 0%N
  ∧ (∃ spec_set,
       SpecifierSet Sample.externals "==1.*,<0.1" = Some spec_set
       ∧ Exists (asks_lower_minor Sample.externals) spec_set)
  ∧ ApeVersion.would_get_downgraded Sample.externals "==1.*,<0.1"
    = Raise InvalidVersion.
Proof.
  split; [reflexivity|]. split; [|reflexivity].
  eexists. split; [reflexivity|]. constructor 2. constructor.
  split; [set_solver|]. eexists. split; reflexivity.
Qed.

(** C2.  [install_str] returns a version that starts with [git+] as it is;
    for another given version it raises [PluginVersionError] exactly when
    [would_get_downgraded] holds of the normalized specifier ([==] is put
    before a version without [=], [<] and [>]), and otherwise asks for the
    package name followed by that specifier; it raises [PluginVersionError]
    in no other case; with no version requested it returns the package name
    immediately followed by Ape's version range. *)
Theorem install_str_cases (E : Externals) (self : t) :
  (∀ v, version self = Some v → PyStr.startswith v "git+" = true →
     install_str E self = Ok v)
  ∧ (∀ v, version self = Some v → v ≠ "" → PyStr.startswith v "git+" = false →
       (raises_PluginVersionError (install_str E self)
        ↔ ApeVersion.would_get_downgraded E (normalized_specifier v) = Ok true)
       ∧ (ApeVersion.would_get_downgraded E (normalized_specifier v) = Ok false →
          install_str E self = Ok (package_name self +:+ normalized_specifier v)))
  ∧ (raises_PluginVersionError (install_str E self) →
     ∃ v, version self = Some v ∧ v ≠ "" ∧ PyStr.startswith v "git+" = false
          ∧ ApeVersion.would_get_downgraded E (normalized_specifier v) = Ok true)
  ∧ (version self = None ∨ version self = Some "" →
     install_str E self = Ok (package_name self +:+ ApeVersion.version_range E)).
Proof.
  assert (Hgiven : ∀ v, version self = Some v → v ≠ "" →
            PyStr.startswith v "git+" = false →
            install_str E self
            = (downgraded ← ApeVersion.would_get_downgraded E (normalized_specifier v) ;;;
               if (downgraded : bool)
               then Raise (PluginVersionError
                             "install" "Doing so will downgrade Ape's version."
                             "Downgrade Ape first.")
               else Ok (package_name self +:+ normalized_specifier v))).
  { intros v Hv Hne Hgit. unfold install_str, normalized_specifier.
    rewrite Hv, (truthy_nonempty v Hne). simpl. rewrite Hgit. simpl.
    destruct (PyStr.has_char "=" v || (PyStr.has_char "<" v
              || (PyStr.has_char ">" v || false))) eqn:Hchars; simpl;
      (destruct (ApeVersion.would_get_downgraded E _) as [[]|e]; simpl;
       [done| |done]).
    - by rewrite decide_False.
    - done. }
  assert (Hnone : version self = None ∨ version self = Some "" →
            install_str E self
            = Ok (package_name self +:+ ApeVersion.version_range E)).
  { intros Hv. unfold install_str.
    assert (truthy (version self) = false) as -> by by destruct Hv as [-> | ->].
    simpl. rewrite decide_False; [done|]. apply version_range_nonempty. }
  split; [|split; [|split]]; [| |  |exact Hnone].
  - intros v Hv Hgit. unfold install_str. rewrite Hv. simpl.
    rewrite Hgit. by destruct v.
  - intros v Hv Hne Hgit. rewrite (Hgiven v Hv Hne Hgit). split.
    + split.
      * intros (op & reason & res & H).
        destruct (ApeVersion.would_get_downgraded E _) as [[]|e] eqn:Hd;
          simpl in H; [done|done|].
        destruct (would_get_downgraded_not_PluginVersionError E
                    (normalized_specifier v)).
        rewrite Hd. inversion H; subst. by do 3 eexists.
      * intros ->. simpl. by do 3 eexists.
    + intros ->. reflexivity.
  - intros Hraise.
    destruct (version self) as [v|] eqn:Hv.
    + destruct (decide (v = "")) as [->|Hne].
      { rewrite Hnone in Hraise by auto. by destruct Hraise as (? & ? & ? & ?). }
      destruct (PyStr.startswith v "git+") eqn:Hgit.
      { unfold install_str in Hraise.
        rewrite Hv, (truthy_nonempty v Hne) in Hraise. simpl in Hraise.
        rewrite Hgit in Hraise.
        by destruct Hraise as (? & ? & ? & ?). }
      exists v. do 3 (split; [done|]).
      rewrite (Hgiven v eq_refl Hne Hgit) in Hraise.
      destruct Hraise as (op & reason & res & H).
      destruct (ApeVersion.would_get_downgraded E _) as [[]|e] eqn:Hd;
        simpl in H; [done|done|].
      destruct (would_get_downgraded_not_PluginVersionError E
                  (normalized_specifier v)).
      rewrite Hd. inversion H; subst. by do 3 eexists.
    + rewrite Hnone in Hraise by auto. by destruct Hraise as (? & ? & ? & ?).
Qed.

Lemma install_str_cases_witness :
  install_str Sample.externals
    {| name := "foo";
       version := Some "git+https://github.com/ApeWorX/ape-foo";
       pip_command := ["uv"; "pip"] |}
  = Ok "git+https://github.com/ApeWorX/ape-foo"
  ∧ raises_PluginVersionError
      (install_str Sample.externals
         {| name := "foo"; version := Some "0.7.1";
            pip_command := ["uv"; "pip"] |})
  ∧ install_str Sample.externals
      {| name := "foo"; version := Some "0.8.1"; pip_command := ["uv"; "pip"] |}
    = Ok "ape-foo==0.8.1"
  ∧ install_str Sample.externals
      {| name := "foo"; version := None; pip_command := ["uv"; "pip"] |}
    = Ok "ape-foo>=0.8,<0.9".
Proof.
  split; [|split; [|split]].
  - apply (proj1 (install_str_cases Sample.externals
             {| name := "foo";
                version := Some "git+https://github.com/ApeWorX/ape-foo";
                pip_command := ["uv"; "pip"] |}) _ eq_refl).
    reflexivity.
  - apply (proj1 (proj2 (install_str_cases Sample.externals
             {| name := "foo"; version := Some "0.7.1";
                pip_command := ["uv"; "pip"] |})) "0.7.1" eq_refl);
      [discriminate | reflexivity | reflexivity].
  - apply (proj1 (proj2 (install_str_cases Sample.externals
             {| name := "foo"; version := Some "0.8.1";
                pip_command := ["uv"; "pip"] |})) "0.8.1" eq_refl);
      [discriminate | reflexivity | reflexivity].
  - apply (proj2 (proj2 (proj2 (install_str_cases Sample.externals
             {| name := "foo"; version := None;
                pip_command := ["uv"; "pip"] |})))).
    by left.
Defined.

End version_checks.

(** ** Classification of package names *)

Section classification.
Import PluginMetadata.

Lemma is_name_char_no_space (c : ascii) :
  is_name_char c = true → negb (PyStr.isspace c) = true.
Proof. by destruct c as [[] [] [] [] [] [] [] []]. Qed.

Lemma name_chars_strip (s : string) :
  PyStr.all_chars is_name_char s = true → PyStr.strip s = s.
Proof.
  intros Hs. apply strip_no_space.
  by apply (all_chars_impl is_name_char _ s is_name_char_no_space).
Qed.

Lemma name_chars_without (sub s : string) :
  PyStr.all_chars is_name_char sub = false →
  PyStr.all_chars is_name_char s = true →
  PyStr.contains sub s = false.
Proof.
  intros Hsub Hs. destruct (PyStr.contains sub s) eqn:Hc; [|done].
  by rewrite (contains_all_chars is_name_char sub s Hc Hs) in Hsub.
Qed.

Lemma name_chars_clean (name : string) :
  PyStr.all_chars is_name_char name = true →
  PyStr.all_chars is_name_char (clean_plugin_name name) = true.
Proof.
  intros Hname. unfold clean_plugin_name, PyStr.replace.
  apply all_chars_replace_upto; [done|].
  by apply all_chars_replace_upto.
Qed.

(** A collection is left as it is by the trust test. *)
Lemma check_trusted_reusable
    (E : Externals) (plugin : t) (trusted_list : option Iterable) :
  reusable trusted_list = true →
  (check_trusted E plugin false trusted_list).2 = trusted_list.
Proof.
  unfold check_trusted.
  destruct trusted_list as [[items|remaining]|]; [|done|done].
  intros _. by destruct items.
Qed.

Lemma trusted_list_after_reusable
    (E : Externals) (plugin : t) (trusted_list : option Iterable) :
  reusable trusted_list = true →
  trusted_list_after E trusted_list plugin = trusted_list.
Proof.
  intros Hreusable. unfold trusted_list_after.
  destruct (in_core plugin); [done|]. by apply check_trusted_reusable.
Qed.

(** The loop body stores the plugin made from the entry in the group
    [stored_in] gives, under the name as written, and leaves the trusted
    list as the trust test on the plugin left it. *)
Lemma from_package_names_body_outcome
    (E : Externals) (include_available : bool)
    (trusted_list : option Iterable)
    (groups : PluginMetadataList.t) (package_id : string) :
  (PluginMetadataList.from_package_names_body
     E include_available trusted_list groups package_id).2
  = (let parts := PyStr.split "==" package_id in
     name ← getitem_first parts ;;;
     plugin ←
       validate_name E (Some (PyStr.strip name))
         (if decide (length parts = 2) then parts !! 1 else None) None ;;;
     Ok (place groups (stored_in E include_available trusted_list plugin)
           name plugin,
         trusted_list_after E trusted_list plugin)).
Proof.
  destruct groups as [core available installed third_party].
  unfold PluginMetadataList.from_package_names_body. outcome.
  destruct (getitem_first (PyStr.split "==" package_id)) as [name|e];
    [|done].
  outcome.
  destruct (validate_name E _ _ _) as [plugin|e]; [|done]. outcome.
  unfold stored_in, trusted_list_after.
  destruct (in_core plugin); [done|].
  destruct (check_trusted E plugin false trusted_list) as [trusted after].
  destruct include_available, (is_available E plugin), (is_installed E plugin),
    trusted; done.
Qed.

Lemma from_package_names_outcome
    (E : Externals) (include_available : bool)
    (trusted_list : option Iterable) (packages : list string) :
  (PluginMetadataList.from_package_names
     E include_available trusted_list packages).2
  = (state ←
       (PluginMetadataList.from_package_names_loop
          E include_available trusted_list packages
          PluginMetadataList.empty).2 ;;;
     Ok state.1).
Proof.
  unfold PluginMetadataList.from_package_names. rewrite lbind_outcome.
  by destruct (PluginMetadataList.from_package_names_loop _ _ _ _ _).2
    as [[groups after]|e].
Qed.

Lemma from_package_names_loop_cons
    (E : Externals) (include_available : bool)
    (trusted_list : option Iterable) (package_id : string)
    (packages : list string) (groups : PluginMetadataList.t) :
  (PluginMetadataList.from_package_names_loop
     E include_available trusted_list (package_id :: packages) groups).2
  = (state ←
       (PluginMetadataList.from_package_names_body
          E include_available trusted_list groups package_id).2 ;;;
     (PluginMetadataList.from_package_names_loop
        E include_available state.2 packages state.1).2).
Proof.
  cbn [PluginMetadataList.from_package_names_loop]. rewrite lbind_outcome.
  by destruct (PluginMetadataList.from_package_names_body _ _ _ _ _).2
    as [[groups1 after]|e].
Qed.

Lemma validate_name_package_name
    (E : Externals) (name : string) (version : option string) :
  PyStr.all_chars is_name_char name = true →
  (∀ v, version = Some v → PyStr.startswith v "git+" = false) →
  validate_name E (Some (PyStr.strip name)) version None
  = Ok {| name := clean_plugin_name name;
          version := version;
          pip_command := PIP_COMMAND E |}.
Proof.
  intros Hname Hversion. unfold validate_name.
  rewrite (name_chars_strip name Hname).
  assert (PyStr.startswith name "git+" = false) as ->.
  { destruct (PyStr.startswith name "git+") eqn:Hgit; [|done].
    apply contains_startswith in Hgit.
    by rewrite (name_chars_without "git+" name) in Hgit. }
  simpl.
  assert (truthy version && PyStr.startswith (default "" version) "git+"
          = false) as ->.
  { destruct version as [v|]; [|done]. simpl.
    rewrite (Hversion v eq_refl). apply andb_false_r. }
  destruct (truthy version); simpl; [done|].
  by rewrite !(name_chars_without _ name) by done.
Qed.

(** What the loop makes of an entry that is a package name with or without
    a version. *)
Lemma entry_of_package_id (E : Externals) (package_id : string) :
  is_package_id package_id = true →
  (let parts := PyStr.split "==" package_id in
   name ← getitem_first parts ;;;
   plugin ←
     validate_name E (Some (PyStr.strip name))
       (if decide (length parts = 2) then parts !! 1 else None) None ;;;
   Ok (name, plugin))
  = Ok (reference_entry E package_id)
  ∧ PyStr.all_chars is_name_char (reference_entry E package_id).1 = true
  ∧ PyStr.all_chars is_name_char (name (reference_entry E package_id).2)
    = true.
Proof.
  intros Hid. unfold is_package_id in Hid. unfold reference_entry.
  destruct (PyStr.split "==" package_id) as [|name [|version [|]]];
    [done| | |done]; simpl.
  - rewrite (validate_name_package_name E name None) by done.
    split; [done|]. split; [done|]. by apply name_chars_clean.
  - apply andb_true_iff in Hid as [Hname Hgit].
    rewrite (validate_name_package_name E name (Some version)); [|done|].
    + split; [done|]. split; [done|]. by apply name_chars_clean.
    + intros v [= <-]. by destruct (PyStr.startswith version "git+").
Qed.

Lemma in_core_reference (plugin : t) :
  PyStr.all_chars is_name_char (name plugin) = true →
  in_core plugin
  = bool_decide (reference_module_name (name plugin) ∈ CORE_PLUGINS).
Proof.
  intros Hname. unfold in_core.
  change (module_name plugin) with (reference_module_name (name plugin)).
  rewrite (name_chars_strip (reference_module_name (name plugin))); [done|].
  unfold reference_module_name, PyStr.replace.
  rewrite all_chars_app. apply andb_true_iff. split; [done|].
  by apply all_chars_replace_upto.
Qed.

Lemma stored_in_reference_group
    (E : Externals) (include_available : bool)
    (trusted_list : option Iterable) (plugin : t) :
  PyStr.all_chars is_name_char (name plugin) = true →
  stored_in E include_available trusted_list plugin
  = reference_group E include_available trusted_list plugin.
Proof.
  intros Hname. unfold stored_in, reference_group.
  rewrite (in_core_reference plugin Hname).
  unfold is_available, _get_available_plugins.
  change (module_name plugin) with (reference_module_name (name plugin)).
  case_bool_decide; [done|]. simpl.
  destruct include_available,
    (bool_decide (reference_module_name (name plugin) ∈ available_plugins E)),
    (is_installed E plugin), (check_trusted E plugin false trusted_list).1;
    done.
Qed.

Lemma reference_group_core
    (E : Externals) (include_available : bool)
    (trusted_list : option Iterable) (plugin : t) :
  reference_group E include_available trusted_list plugin = Some CORE
  ↔ bool_decide (reference_module_name (name plugin) ∈ CORE_PLUGINS) = true.
Proof.
  unfold reference_group.
  destruct (bool_decide (reference_module_name (name plugin) ∈ CORE_PLUGINS));
    [done|].
  destruct (include_available && _ && _); [done|].
  destruct (_ && _); [done|]. by destruct (is_installed E plugin).
Qed.

Lemma from_package_names_body_reference
    (E : Externals) (include_available : bool)
    (trusted_list : option Iterable)
    (groups : PluginMetadataList.t) (package_id : string) :
  is_package_id package_id = true →
  (PluginMetadataList.from_package_names_body
     E include_available trusted_list groups package_id).2
  = Ok (reference_step E include_available (groups, trusted_list) package_id).
Proof.
  intros Hid. rewrite from_package_names_body_outcome.
  destruct (entry_of_package_id E package_id Hid) as (Hentry & _ & Hname).
  unfold reference_step.
  destruct (reference_entry E package_id) as [key plugin0].
  cbn zeta in Hentry |- *. cbn [snd] in Hname.
  destruct (getitem_first (PyStr.split "==" package_id)) as [name0|e];
    [|done].
  cbn [rbind] in Hentry |- *.
  destruct (validate_name E _ _ None) as [plugin|e]; [|done].
  cbn [rbind] in Hentry |- *. injection Hentry as -> ->.
  rewrite (stored_in_reference_group E _ _ plugin0 Hname).
  f_equal. f_equal. unfold trusted_list_after.
  rewrite (in_core_reference plugin0 Hname).
  case_decide as Hcore.
  - apply reference_group_core in Hcore. by rewrite Hcore.
  - destruct (bool_decide _) eqn:Hmodule; [|done].
    by apply (reference_group_core E include_available trusted_list) in Hmodule.
Qed.

Lemma from_package_names_loop_reference
    (E : Externals) (include_available : bool) (packages : list string) :
  Forall (λ package_id, is_package_id package_id = true) packages →
  ∀ trusted_list groups,
    (PluginMetadataList.from_package_names_loop
       E include_available trusted_list packages groups).2
    = Ok (foldl (reference_step E include_available)
            (groups, trusted_list) packages).
Proof.
  induction 1 as [|package_id packages Hid _ IH]; intros trusted_list groups.
  { done. }
  rewrite from_package_names_loop_cons.
  rewrite (from_package_names_body_reference _ _ _ _ _ Hid).
  cbn [rbind foldl]. rewrite IH. by destruct (reference_step _ _ _ _).
Qed.

Lemma place_lookup_is_Some
    (groups : PluginMetadataList.t) (group : option PluginType)
    (key : string) (plugin : t) (g : PluginType) (k : string) :
  is_Some (plugins_of (place groups group key plugin) g !! k)
  ↔ (group = Some g ∧ key = k) ∨ is_Some (plugins_of groups g !! k).
Proof.
  destruct groups, group as [[]|], g; simpl; rewrite ?lookup_insert_is_Some';
    intuition congruence.
Qed.

Lemma reference_group_name
    (E : Externals) (include_available : bool)
    (trusted_list : option Iterable) (plugin1 plugin2 : t) :
  name plugin1 = name plugin2 →
  reference_group E include_available trusted_list plugin1
  = reference_group E include_available trusted_list plugin2.
Proof.
  intros Hname.
  unfold reference_group, is_installed, check_installed, check_trusted,
    package_name.
  by rewrite Hname.
Qed.

Lemma reference_step_reusable
    (E : Externals) (include_available : bool)
    (trusted_list : option Iterable)
    (groups : PluginMetadataList.t) (package_id : string) :
  reusable trusted_list = true →
  reference_step E include_available (groups, trusted_list) package_id
  = (place groups
       (reference_group E include_available trusted_list
          (reference_entry E package_id).2)
       (reference_entry E package_id).1 (reference_entry E package_id).2,
     trusted_list).
Proof.
  intros Hreusable. unfold reference_step.
  destruct (reference_entry E package_id) as [key plugin]. simpl.
  f_equal. case_decide; [done|]. by apply (check_trusted_reusable E).
Qed.

(** With a trusted list that is not consumed, a key is in a group of the
    reference result when some entry with that key is classified into the
    group. *)
Lemma reference_fold_is_Some
    (E : Externals) (include_available : bool)
    (trusted_list : option Iterable) (packages : list string)
    (groups : PluginMetadataList.t) (g : PluginType) (k : string) :
  reusable trusted_list = true →
  is_Some
    (plugins_of
       (foldl (reference_step E include_available)
          (groups, trusted_list) packages).1 g !! k)
  ↔ is_Some (plugins_of groups g !! k)
    ∨ ∃ package_id,
        package_id ∈ packages
        ∧ (reference_entry E package_id).1 = k
        ∧ reference_group E include_available trusted_list
            (reference_entry E package_id).2 = Some g.
Proof.
  intros Hreusable.
  revert groups. induction packages as [|package_id packages IH];
    intros groups; cbn [foldl].
  { split; [by left|]. intros [?|(? & []%elem_of_nil & _)]. done. }
  rewrite (reference_step_reusable E _ _ _ _ Hreusable), IH.
  rewrite place_lookup_is_Some. split.
  - intros [[[Hg Hk]|Hold]|(e & He' & Hkey & Hgroup)].
    + right. exists package_id. split; [by left|done].
    + by left.
    + right. exists e. split; [by right|done].
  - intros [Hold|(e & [->|He']%elem_of_cons & Hkey & Hgroup)].
    + left. by right.
    + left. by left.
    + right. by exists e.
Qed.

(** C1.  For every list of package-name strings, each optionally suffixed by
    [==version], [from_package_names] returns the four groups in which each
    entry is classified by the reference definition: core iff its module
    name is a core plugin; otherwise available iff available plugins are
    included, the module name is in the registry's available set and the
    plugin is not installed; otherwise installed iff installed and trusted;
    otherwise third-party iff installed; otherwise in no group.  Trusted is
    the answer of the trust test for the entry, on a trusted list of any
    kind.  When the trusted list is none or a collection, which answers the
    same for a name each time, the name of an entry is a key of a group
    exactly when the reference definition gives that group for the entry. *)
Theorem from_package_names_classifies
    (E : Externals) (include_available : bool)
    (trusted_list : option Iterable) (packages : list string) :
  Forall (λ package_id, is_package_id package_id = true) packages →
  ∃ groups,
    (PluginMetadataList.from_package_names
       E include_available trusted_list packages).2 = Ok groups
    ∧ groups
      = reference_from_package_names E include_available trusted_list packages
    ∧ (reusable trusted_list = true →
       ∀ package_id g,
         package_id ∈ packages →
         is_Some (plugins_of groups g !! (reference_entry E package_id).1)
         ↔ reference_group E include_available trusted_list
             (reference_entry E package_id).2 = Some g).
Proof.
  intros Hids. eexists. split.
  { rewrite from_package_names_outcome.
    by rewrite (from_package_names_loop_reference E _ packages Hids). }
  split; [done|]. intros Hreusable package_id g Hin. cbn [rbind fst].
  rewrite (reference_fold_is_Some E _ _ _ _ _ _ Hreusable). split.
  - intros [[? Hempty]|(e & _ & Hkey & Hgroup)].
    { destruct g; simpl in Hempty; by rewrite lookup_empty in Hempty. }
    rewrite <- Hgroup. apply reference_group_name.
    unfold reference_entry in *. simpl in *. by rewrite Hkey.
  - intros Hgroup. right. by exists package_id.
Qed.

Lemma from_package_names_classifies_witness :
  ∃ groups,
    (PluginMetadataList.from_package_names Sample.externals true
       (Some (Collection ["foo"]))
       ["ape-solidity==0.8.2"; "ape_test"; "vyper"; "foo"; "bar"]).2
    = Ok groups
    ∧ groups
      = reference_from_package_names Sample.externals true
          (Some (Collection ["foo"]))
          ["ape-solidity==0.8.2"; "ape_test"; "vyper"; "foo"; "bar"]
    ∧ (is_Some (plugins_of groups INSTALLED !! "foo")
       ↔ reference_group Sample.externals true (Some (Collection ["foo"]))
           {| name := "foo"; version := None;
              pip_command := ["python"; "-m"; "pip"] |}
         = Some INSTALLED).
Proof.
  destruct (from_package_names_classifies Sample.externals true
              (Some (Collection ["foo"]))
              ["ape-solidity==0.8.2"; "ape_test"; "vyper"; "foo"; "bar"])
    as (groups & Hrun & Href & Hkeys).
  { repeat constructor. }
  exists groups. split; [exact Hrun|]. split; [exact Href|].
  apply (Hkeys eq_refl "foo" INSTALLED). do 3 right. left.
Defined.

(** *** Disjointness of the groups *)

Lemma stored_in_name
    (E : Externals) (include_available : bool)
    (trusted_list : option Iterable) (plugin1 plugin2 : t) :
  name plugin1 = name plugin2 →
  stored_in E include_available trusted_list plugin1
  = stored_in E include_available trusted_list plugin2.
Proof.
  intros Hname.
  unfold stored_in, in_core, is_available, is_installed, check_installed,
    check_trusted, module_name, package_name.
  by rewrite Hname.
Qed.

Lemma constraint_free_has_char (c : ascii) (s : string) :
  c ∈ ["<"; ">"; "="; "@"]%char → PyStr.has_char c s = true →
  constraint_free s = false.
Proof.
  intros Hc Hs. unfold constraint_free. apply negb_false_iff, existsb_exists.
  exists c. split; [by apply list_elem_of_In | done].
Qed.

Lemma constraint_char_cases (P : ascii → Prop) (c : ascii) :
  c ∈ ["<"; ">"; "="; "@"]%char →
  P "<"%char → P ">"%char → P "="%char → P "@"%char → P c.
Proof.
  intros Hc. repeat (apply elem_of_cons in Hc as [->|Hc]; [by auto|]).
  by apply elem_of_nil in Hc.
Qed.

Lemma constraint_char_clean (c : ascii) (name : string) :
  c ∈ ["<"; ">"; "="; "@"]%char → PyStr.has_char c name = true →
  PyStr.has_char c (clean_plugin_name name) = true.
Proof.
  intros Hc Hname. unfold clean_plugin_name, PyStr.replace.
  apply has_char_replace_upto;
    [by apply (constraint_char_cases (λ c, PyStr.has_char c "ape-" = false) c Hc)|].
  apply has_char_replace_upto; [|done].
  by apply (constraint_char_cases (λ c, PyStr.has_char c "_" = false) c Hc).
Qed.

Lemma constraint_char_no_space (c : ascii) :
  c ∈ ["<"; ">"; "="; "@"]%char → PyStr.isspace c = false.
Proof.
  intros Hc.
  by apply (constraint_char_cases (λ c, PyStr.isspace c = false) c Hc).
Qed.

(** A plugin whose name holds a version-constraint character is stored in no
    group. *)
Lemma stored_in_constraint
    (E : Externals) (include_available : bool)
    (trusted_list : option Iterable) (plugin : t) (c : ascii) :
  names_constraint_free E →
  c ∈ ["<"; ">"; "="; "@"]%char → PyStr.has_char c (name plugin) = true →
  stored_in E include_available trusted_list plugin = None.
Proof.
  intros [Hdists Havailable] Hc Hname.
  assert (PyStr.has_char c (module_name plugin) = true) as Hmodule.
  { unfold module_name, PyStr.replace. rewrite has_char_app.
    rewrite has_char_replace_upto; [apply orb_true_r| |done].
    by apply (constraint_char_cases (λ c, PyStr.has_char c "-" = false) c Hc). }
  assert (in_core plugin = false) as Hcore.
  { apply bool_decide_eq_false_2. intros Hin.
    assert (constraint_free (PyStr.strip (module_name plugin)) = true) as Hfree.
    { revert Hin. generalize (PyStr.strip (module_name plugin)). intros s Hin.
      unfold CORE_PLUGINS in Hin.
      repeat (apply elem_of_cons in Hin as [->|Hin]; [done|]).
      by apply elem_of_nil in Hin. }
    rewrite (constraint_free_has_char c) in Hfree; [done|done|].
    apply has_char_strip; [by apply constraint_char_no_space | done]. }
  assert (is_installed E plugin = false) as Hinstalled.
  { apply bool_decide_eq_false_2. intros Hin.
    apply (proj1 (Forall_forall _ _) Hdists) in Hin.
    rewrite (constraint_free_has_char c) in Hin; [done|done|].
    unfold package_name. rewrite has_char_app, Hname. apply orb_true_r. }
  assert (is_available E plugin = false) as Hnot_available.
  { apply bool_decide_eq_false_2. intros Hin. apply elem_of_elements in Hin.
    apply (proj1 (Forall_forall _ _) Havailable) in Hin.
    by rewrite (constraint_free_has_char c) in Hin. }
  unfold stored_in. rewrite Hcore, Hinstalled, Hnot_available.
  by destruct include_available.
Qed.

Lemma constraint_has_char (constraint name : string) :
  In constraint ["=="; "<="; ">="; "@git+"] →
  PyStr.contains constraint name = true →
  ∃ c, c ∈ ["<"; ">"; "="; "@"]%char ∧ PyStr.has_char c name = true.
Proof.
  intros Hin Hcontains. simpl in Hin.
  destruct Hin as [<-|[<-|[<-|[<-|[]]]]].
  - exists "="%char. split; [set_solver|].
    by apply (contains_has_char _ "==" name).
  - exists "<"%char. split; [set_solver|].
    by apply (contains_has_char _ "<=" name).
  - exists ">"%char. split; [set_solver|].
    by apply (contains_has_char _ ">=" name).
  - exists "@"%char. split; [set_solver|].
    by apply (contains_has_char _ "@git+" name).
Qed.

(** Whatever version comes with a name, a plugin that is stored in a group
    is stored in the group of the plugin made from the name alone. *)
Lemma validate_name_same_group
    (E : Externals) (include_available : bool)
    (trusted_list : option Iterable)
    (name0 : string) (version0 : option string) (plugin : t) (g : PluginType) :
  names_constraint_free E →
  validate_name E (Some name0) version0 None = Ok plugin →
  stored_in E include_available trusted_list plugin = Some g →
  ∃ plugin0,
    validate_name E (Some name0) None None = Ok plugin0
    ∧ stored_in E include_available trusted_list plugin0 = Some g.
Proof.
  intros Hfree Hplugin Hstored. unfold validate_name in *.
  destruct (PyStr.startswith name0 "git+") eqn:Hgit.
  { exists plugin. by split. }
  cbn [rbind] in *.
  destruct (find (λ constraint, PyStr.contains constraint name0)
              ["=="; "<="; ">="; "@git+"]) as [constraint|] eqn:Hfind.
  - apply find_some in Hfind as [Hin Hcontains].
    destruct (constraint_has_char constraint name0 Hin Hcontains)
      as (c & Hc & Hname).
    destruct (truthy version0) eqn:Htruthy; simpl in Hplugin.
    + assert (name plugin = clean_plugin_name name0) as Hclean.
      { destruct (PyStr.startswith (default "" version0) "git+");
          [destruct (negb _); [done|]|]; simpl in Hplugin;
          by injection Hplugin as <-. }
      rewrite (stored_in_constraint E _ _ plugin c) in Hstored;
        [done|done|done|].
      rewrite Hclean. by apply constraint_char_clean.
    + exists plugin. split; [|done]. exact Hplugin.
  - eexists. split; [reflexivity|].
    rewrite <- Hstored. apply stored_in_name. simpl.
    destruct (truthy version0); simpl in Hplugin.
    + destruct (PyStr.startswith (default "" version0) "git+");
        [destruct (negb _); [done|]|]; simpl in Hplugin;
        by injection Hplugin as <-.
    + by injection Hplugin as <-.
Qed.

(** The key of an entry that is a package name, with or without a version,
    has the group of the entry. *)
Lemma package_id_same_group
    (E : Externals) (include_available : bool)
    (trusted_list : option Iterable) (package_id : string) :
  is_package_id package_id = true →
  group_of_key E include_available trusted_list
    (reference_entry E package_id).1
  = stored_in E include_available trusted_list
      (reference_entry E package_id).2.
Proof.
  intros Hid.
  destruct (entry_of_package_id E package_id Hid) as (_ & Hkey & _).
  unfold group_of_key.
  by rewrite (validate_name_package_name E _ None Hkey).
Qed.

(** The invariant of the loop, for a trusted list that is not consumed:
    every key of a group is a name whose own group that is. *)
Lemma from_package_names_body_invariant
    (E : Externals) (include_available : bool)
    (trusted_list after : option Iterable)
    (groups groups' : PluginMetadataList.t) (package_id : string) :
  reusable trusted_list = true →
  names_constraint_free E ∨ is_package_id package_id = true →
  (∀ g k, is_Some (plugins_of groups g !! k) →
          group_of_key E include_available trusted_list k = Some g) →
  (PluginMetadataList.from_package_names_body
     E include_available trusted_list groups package_id).2
  = Ok (groups', after) →
  after = trusted_list
  ∧ ∀ g k, is_Some (plugins_of groups' g !! k) →
           group_of_key E include_available trusted_list k = Some g.
Proof.
  intros Hreusable Hcase Hinv. rewrite from_package_names_body_outcome.
  cbn zeta.
  destruct (getitem_first (PyStr.split "==" package_id)) as [key|e] eqn:Hkey;
    [|done].
  cbn [rbind].
  destruct (validate_name E (Some (PyStr.strip key)) _ None)
    as [plugin|e] eqn:Hplugin; [|done].
  cbn [rbind]. rewrite (trusted_list_after_reusable E _ _ Hreusable).
  intros [= <- <-]. split; [done|]. intros g k.
  rewrite place_lookup_is_Some. intros [[Hstored <-]|Hold]; [|by apply Hinv].
  destruct Hcase as [Hfree|Hid].
  - destruct (validate_name_same_group E include_available trusted_list
                _ _ plugin g Hfree Hplugin Hstored) as (plugin0 & H0 & Hg).
    unfold group_of_key. by rewrite H0.
  - destruct (entry_of_package_id E package_id Hid) as (Hentry & _ & _).
    cbn zeta in Hentry. rewrite Hkey in Hentry. cbn [rbind] in Hentry.
    rewrite Hplugin in Hentry. cbn [rbind] in Hentry.
    pose proof (package_id_same_group E include_available trusted_list
                  package_id Hid) as Hsame.
    destruct (reference_entry E package_id) as [key0 plugin0].
    injection Hentry as -> ->. cbn [fst snd] in Hsame. by rewrite Hsame.
Qed.

Lemma from_package_names_loop_invariant
    (E : Externals) (include_available : bool)
    (trusted_list : option Iterable) (packages : list string) :
  reusable trusted_list = true →
  names_constraint_free E
  ∨ Forall (λ package_id, is_package_id package_id = true) packages →
  ∀ groups groups' after,
    (∀ g k, is_Some (plugins_of groups g !! k) →
            group_of_key E include_available trusted_list k = Some g) →
    (PluginMetadataList.from_package_names_loop
       E include_available trusted_list packages groups).2
    = Ok (groups', after) →
    ∀ g k, is_Some (plugins_of groups' g !! k) →
           group_of_key E include_available trusted_list k = Some g.
Proof.
  intros Hreusable. induction packages as [|package_id packages IH];
    intros Hcase groups groups' after Hinv.
  { by intros [= <- <-]. }
  rewrite from_package_names_loop_cons.
  destruct (PluginMetadataList.from_package_names_body _ _ _ groups package_id).2
    as [[groups1 after1]|e] eqn:Hbody; [|done].
  cbn [rbind fst snd].
  destruct (from_package_names_body_invariant E include_available trusted_list
              after1 groups groups1 package_id Hreusable) as [-> Hinv1];
    [|done|done|].
  { destruct Hcase as [Hfree|Hids]; [by left|right].
    by apply Forall_cons in Hids as [Hid _]. }
  apply IH; [|done].
  destruct Hcase as [Hfree|Hids]; [by left|right].
  by apply Forall_cons in Hids as [_ Hids].
Qed.

(** C7 (amended).  With a trusted list that is none or a collection, the
    four groups [from_package_names] returns are pairwise disjoint, on every
    installation when the entries are package names with or without a
    version, and for entries of any kind on an installation whose
    distribution and registry names hold no character of a version
    constraint: no name is a key of two of the dictionaries. *)
Theorem from_package_names_groups_disjoint
    (E : Externals) (include_available : bool)
    (trusted_list : option Iterable) (packages : list string)
    (groups : PluginMetadataList.t) :
  reusable trusted_list = true →
  names_constraint_free E
  ∨ Forall (λ package_id, is_package_id package_id = true) packages →
  (PluginMetadataList.from_package_names
     E include_available trusted_list packages).2 = Ok groups →
  pairwise_disjoint groups.
Proof.
  intros Hreusable Hcase Hrun. rewrite from_package_names_outcome in Hrun.
  destruct (PluginMetadataList.from_package_names_loop _ _ _ _ _).2
    as [[groups0 after]|e] eqn:Hloop; [|done].
  cbn [rbind fst] in Hrun. injection Hrun as ->.
  assert (Hinv : ∀ g k, is_Some (plugins_of groups g !! k) →
                        group_of_key E include_available trusted_list k = Some g).
  { apply (from_package_names_loop_invariant E include_available trusted_list
             packages Hreusable Hcase PluginMetadataList.empty groups after);
      [|done].
    intros g k [? Hempty]. destruct g; simpl in Hempty;
      by rewrite lookup_empty in Hempty. }
  assert (Hdisjoint : ∀ g1 g2, g1 ≠ g2 →
            dom (plugins_of groups g1) ## dom (plugins_of groups g2)).
  { intros g1 g2 Hne. apply elem_of_disjoint. intros k H1 H2.
    apply elem_of_dom, Hinv in H1. apply elem_of_dom, Hinv in H2. congruence. }
  unfold pairwise_disjoint. cbn zeta.
  split; [exact (Hdisjoint CORE AVAILABLE ltac:(done))|].
  split; [exact (Hdisjoint CORE INSTALLED ltac:(done))|].
  split; [exact (Hdisjoint CORE THIRD_PARTY ltac:(done))|].
  split; [exact (Hdisjoint AVAILABLE INSTALLED ltac:(done))|].
  split; [exact (Hdisjoint AVAILABLE THIRD_PARTY ltac:(done))|].
  exact (Hdisjoint INSTALLED THIRD_PARTY ltac:(done)).
Qed.

Lemma from_package_names_groups_disjoint_witness :
  ∃ groups,
    (PluginMetadataList.from_package_names Sample.externals true
       (Some (Collection ["foo"]))
       ["test>=1"; "test>=1==2"; "ape-solidity==0.8.2"; "vyper"; "foo";
        "foo==0.1"]).2 = Ok groups
    ∧ pairwise_disjoint groups.
Proof.
  eexists. split; [reflexivity|].
  apply (from_package_names_groups_disjoint Sample.externals true
           (Some (Collection ["foo"]))
           ["test>=1"; "test>=1==2"; "ape-solidity==0.8.2"; "vyper"; "foo";
            "foo==0.1"]).
  - reflexivity.
  - left. split; vm_compute; repeat constructor.
  - reflexivity.
Defined.

(** C7 as stated fails when the trusted list is a one-shot iterator.  On an
    installation with [ape-foo], the entry [foo] finds its name in the
    iterator and is stored as installed; the entry [foo==0.1] meets the
    iterator exhausted and is stored as third-party; both under the key
    [foo]. *)
Lemma from_package_names_one_shot_trusted_list :
  ∃ groups,
    (PluginMetadataList.from_package_names
       Sample.externals true (Some (Iterator ["foo"]))
       ["foo"; "foo==0.1"]).2 = Ok groups
    ∧ names_constraint_free Sample.externals
    ∧ version <$> plugins (PluginMetadataList.installed groups) !! "foo"
      = Some None
    ∧ version <$> plugins (PluginMetadataList.third_party groups) !! "foo"
      = Some (Some "0.1")
    ∧ ¬ pairwise_disjoint groups.
Proof.
  eexists. split; [reflexivity|].
  split; [split; vm_compute; repeat constructor|].
  split; [reflexivity|]. split; [reflexivity|].
  intros (_ & _ & _ & _ & _ & Hdisjoint).
  apply (proj1 (elem_of_disjoint _ _) Hdisjoint "foo");
    by apply elem_of_dom.
Qed.

(** Neither of the two assumptions on the names can be dropped together
    with the other.  When a distribution carries a version constraint in its
    name, the entry [test>=1] makes the plugin [test], a core plugin; the
    entry [test>=1==2] keeps the whole of [test>=1] as the plugin name, which
    is installed here and not trusted; both are stored under the key
    [test>=1]. *)
Lemma from_package_names_same_key_two_groups :
  ∃ groups,
    (PluginMetadataList.from_package_names
       Sample.externals_unchecked_names true None
       ["test>=1"; "test>=1==2"]).2 = Ok groups
    ∧ name <$> plugins (PluginMetadataList.core groups) !! "test>=1"
      = Some "test"
    ∧ name <$> plugins (PluginMetadataList.third_party groups) !! "test>=1"
      = Some "test>=1"
    ∧ ¬ pairwise_disjoint groups.
Proof.
  eexists. split; [reflexivity|]. split; [reflexivity|]. split; [reflexivity|].
  intros (_ & _ & Hdisjoint & _).
  apply (proj1 (elem_of_disjoint _ _) Hdisjoint "test>=1");
    by apply elem_of_dom.
Qed.

End classification.

(** * Further properties of the module *)

(** ** Installed plugin distributions *)

Section plugin_dists.

(** X1.  [_filter_plugins_from_dists] yields exactly the names of the
    distributions that start with [ape-], where the name of a distribution
    is its [name] attribute or, when that is empty, the [Name] entry of its
    metadata. *)
Theorem _filter_plugins_from_dists_yields (dists : list Distribution)
    (name : string) :
  name ∈ _filter_plugins_from_dists dists
  ↔ PyStr.startswith name "ape-" = true
    ∧ ∃ dist,
        dist ∈ dists
        ∧ ((dist_name dist ≠ "" ∧ dist_name dist = name)
           ∨ (dist_name dist = "" ∧ dist_metadata dist !! "Name" = Some name)).
Proof.
  unfold _filter_plugins_from_dists.
  rewrite list_elem_of_In, in_flat_map. split.
  - intros (dist & Hdist%list_elem_of_In & Hname).
    destruct (dist_name dist) as [|c rest] eqn:Hdn.
    + case_decide as Hempty; [done|].
      destruct (dist_metadata dist !! "Name") as [n|] eqn:Hmeta; simpl in Hname.
      * destruct (PyStr.startswith n "ape-") eqn:Hsw; [|done].
        destruct Hname as [<-|[]]. split; [done|]. exists dist. by auto.
      * done.
    + destruct (PyStr.startswith (String c rest) "ape-") eqn:Hsw; [|done].
      destruct Hname as [<-|[]]. split; [done|]. exists dist.
      split; [done|]. left. by rewrite Hdn.
  - intros (Hsw & dist & Hdist & [[Hne Hdn]|[Hdn Hmeta]]);
      exists dist; (split; [by apply list_elem_of_In|]).
    + rewrite Hdn. destruct name; [done|]. rewrite Hsw. by left.
    + rewrite Hdn. rewrite decide_False.
      * rewrite Hmeta. simpl. rewrite Hsw. by left.
      * intros Hempty. by rewrite Hempty, lookup_empty in Hmeta.
Qed.

End plugin_dists.

(** ** Plugin names *)

Section plugin_names.
Import PluginMetadata.

(** Replacing a single character goes through the string character by
    character. *)
Lemma replace_char_cons (c d : ascii) (new s : string) :
  PyStr.replace (String c "") new (String d s)
  = if decide (c = d) then new +:+ PyStr.replace (String c "") new s
    else String d (PyStr.replace (String c "") new s).
Proof.
  rewrite replace_equation by done. simpl.
  by case_decide.
Qed.

Lemma has_char_all_chars (c : ascii) (s : string) :
  PyStr.has_char c s = false
  ↔ PyStr.all_chars (λ d, negb (bool_decide (d = c))) s = true.
Proof.
  induction s as [|d s IH]; simpl; [done|].
  case_decide.
  - rewrite bool_decide_eq_true_2 by done. done.
  - rewrite bool_decide_eq_false_2 by done. done.
Qed.

Lemma replace_char_removes (c : ascii) (new s : string) :
  PyStr.has_char c new = false →
  PyStr.has_char c (PyStr.replace (String c "") new s) = false.
Proof.
  intros Hnew. induction s as [|d s IH]; [done|].
  rewrite replace_char_cons. case_decide.
  - by rewrite has_char_app, Hnew, IH.
  - simpl. by rewrite decide_False by done.
Qed.

Lemma replace_keeps_absent (c : ascii) (old new s : string) :
  PyStr.has_char c new = false → PyStr.has_char c s = false →
  PyStr.has_char c (PyStr.replace old new s) = false.
Proof.
  rewrite !has_char_all_chars. intros Hnew Hs.
  by apply all_chars_replace_upto.
Qed.

Lemma clean_plugin_name_no_underscore (name : string) :
  PyStr.has_char "_" (clean_plugin_name name) = false.
Proof.
  unfold clean_plugin_name. apply replace_keeps_absent; [done|].
  by apply replace_char_removes.
Qed.

Lemma validate_name_cleans
    (E : Externals) (name0 version0 : option string)
    (pip_command0 : option (list string)) (plugin : t) :
  validate_name E name0 version0 pip_command0 = Ok plugin →
  ∃ text, name plugin = clean_plugin_name text.
Proof.
  unfold validate_name. destruct name0 as [name0|]; [|done].
  destruct (if PyStr.startswith name0 "git+" then _ else _) as [[n1 v1]|e];
    [|done].
  cbn [rbind].
  destruct (if truthy v1 && _ then _ else _) as [[n2 v2]|e]; [|done].
  cbn [rbind]. intros [= <-]. by eexists.
Qed.

(** X2.  The name of a validated plugin has no underscore, so its package
    name has none either, and the module name of any plugin has no dash. *)
Theorem validated_names_separators
    (E : Externals) (name0 version0 : option string)
    (pip_command0 : option (list string)) (plugin : t) :
  validate_name E name0 version0 pip_command0 = Ok plugin →
  PyStr.has_char "_" (name plugin) = false
  ∧ PyStr.has_char "_" (package_name plugin) = false
  ∧ PyStr.has_char "-" (module_name plugin) = false.
Proof.
  intros [text Hname]%validate_name_cleans.
  assert (PyStr.has_char "_" (name plugin) = false) as Hclean
    by (rewrite Hname; apply clean_plugin_name_no_underscore).
  split; [done|]. split.
  - unfold package_name. by rewrite has_char_app, Hclean.
  - unfold module_name. rewrite has_char_app.
    by rewrite replace_char_removes.
Qed.

Lemma validated_names_separators_witness :
  PyStr.has_char "_"
    (name {| name := "foo-bar"; version := Some ">=0.1";
             pip_command := ["python"; "-m"; "pip"] |}) = false
  ∧ PyStr.has_char "_"
      (package_name {| name := "foo-bar"; version := Some ">=0.1";
                       pip_command := ["python"; "-m"; "pip"] |}) = false
  ∧ PyStr.has_char "-"
      (module_name {| name := "foo-bar"; version := Some ">=0.1";
                      pip_command := ["python"; "-m"; "pip"] |}) = false.
Proof.
  apply (validated_names_separators Sample.externals
           (Some "ape_foo_bar>=0.1") None None).
  reflexivity.
Defined.

(** The prefixes [ape-] and [ape_] are dropped by the cleaning. *)
Lemma clean_plugin_name_dash_prefix (name : string) :
  clean_plugin_name ("ape-" +:+ name) = clean_plugin_name name.
Proof.
  unfold clean_plugin_name.
  change ("ape-" +:+ name) with (String "a" (String "p" (String "e" (String "-" name)))).
  rewrite !replace_char_cons. simpl.
  by rewrite (replace_equation "ape-" "" (String "a" _)) by done.
Qed.

Lemma clean_plugin_name_underscore_prefix (name : string) :
  clean_plugin_name ("ape_" +:+ name) = clean_plugin_name name.
Proof.
  unfold clean_plugin_name.
  change ("ape_" +:+ name) with (String "a" (String "p" (String "e" (String "_" name)))).
  rewrite !replace_char_cons. simpl.
  by rewrite (replace_equation "ape-" "" (String "a" _)) by done.
Qed.

(** Dashes turned into underscores and back are dashes. *)
Lemma replace_underscore_dash_underscore (name : string) :
  PyStr.replace "_" "-" (PyStr.replace "-" "_" name) = PyStr.replace "_" "-" name.
Proof.
  induction name as [|c name IH]; [done|].
  rewrite (replace_char_cons "-" c), (replace_char_cons "_" c).
  destruct (decide ("-"%char = c)) as [<-|Hdash].
  - change ("_" +:+ ?s) with (String "_" s).
    rewrite replace_char_cons. simpl. by rewrite IH.
  - rewrite replace_char_cons. case_decide; by rewrite IH.
Qed.

(** X3.  Cleaning the package name or the module name of a plugin gives what
    cleaning its name gives: a plugin can be named by any of the three. *)
Theorem clean_plugin_name_of_package_and_module (plugin : t) :
  clean_plugin_name (package_name plugin) = clean_plugin_name (name plugin)
  ∧ clean_plugin_name (module_name plugin) = clean_plugin_name (name plugin).
Proof.
  unfold package_name, module_name. split.
  - apply clean_plugin_name_dash_prefix.
  - rewrite clean_plugin_name_underscore_prefix. unfold clean_plugin_name.
    by rewrite replace_underscore_dash_underscore.
Qed.

End plugin_names.

(** ** Validation of a plugin request *)

Section validation.
Import PluginMetadata.

Lemma startswith_nonempty (s p : string) :
  p ≠ "" → PyStr.startswith s p = true → truthy (Some s) = true.
Proof.
  intros Hp [rest Hs]%startswith_append. subst s. by destruct p.
Qed.

(** X4.  A plugin named by a [git+] remote keeps the remote as its version,
    whatever version came with it, and the install request of the plugin is
    the remote itself. *)
Theorem validate_name_git_remote
    (E : Externals) (remote : string) (version0 : option string)
    (pip_command0 : option (list string)) (plugin : t) :
  PyStr.startswith remote "git+" = true →
  validate_name E (Some remote) version0 pip_command0 = Ok plugin →
  version plugin = Some remote ∧ install_str E plugin = Ok remote.
Proof.
  intros Hgit. unfold validate_name. rewrite Hgit.
  destruct (urlparse_path E _) as [path|]; [|done].
  destruct (getitem_first _) as [stem|e]; [|done]. cbn [rbind].
  destruct (getitem_last _) as [leaf|e]; [|done]. cbn [rbind].
  rewrite (startswith_nonempty remote "git+") by done.
  cbn [from_option id andb]. rewrite Hgit.
  destruct (negb _); [done|]. cbn [rbind]. intros [= <-].
  split; [done|]. unfold install_str. cbn [version].
  rewrite (startswith_nonempty remote "git+") by done.
  cbn [from_option id andb]. by rewrite Hgit.
Qed.

Lemma validate_name_git_remote_witness :
  version
    {| name := "foo";
       version := Some "git+https://github.com/ApeWorX/ape-foo.git";
       pip_command := ["python"; "-m"; "pip"] |}
  = Some "git+https://github.com/ApeWorX/ape-foo.git"
  ∧ install_str Sample.externals
      {| name := "foo";
         version := Some "git+https://github.com/ApeWorX/ape-foo.git";
         pip_command := ["python"; "-m"; "pip"] |}
    = Ok "git+https://github.com/ApeWorX/ape-foo.git".
Proof.
  apply (validate_name_git_remote Sample.externals
           "git+https://github.com/ApeWorX/ape-foo.git" (Some "0.1") None);
    reflexivity.
Defined.

(** X5.  With a [git+] remote as the version of a plugin that is not itself
    named by a remote, validation succeeds exactly when the remote contains
    [ape-] followed by the name as given (before it is cleaned), and raises
    the mismatch error otherwise. *)
Theorem validate_name_git_version
    (E : Externals) (name0 remote : string)
    (pip_command0 : option (list string)) :
  PyStr.startswith name0 "git+" = false →
  PyStr.startswith remote "git+" = true →
  (PyStr.contains ("ape-" +:+ name0) remote = true →
   validate_name E (Some name0) (Some remote) pip_command0
   = Ok {| name := clean_plugin_name name0;
           version := Some remote;
           pip_command := default (PIP_COMMAND E) pip_command0 |})
  ∧ (PyStr.contains ("ape-" +:+ name0) remote = false →
     validate_name E (Some name0) (Some remote) pip_command0
     = Raise (ValueError "Plugin mismatch with remote git version.")).
Proof.
  intros Hname Hgit. unfold validate_name. rewrite Hname. cbn [rbind].
  rewrite (startswith_nonempty remote "git+") by done.
  cbn [from_option id andb]. rewrite Hgit.
  split; intros ->; reflexivity.
Qed.

Lemma validate_name_git_version_witness :
  validate_name Sample.externals (Some "foo")
    (Some "git+https://github.com/ApeWorX/ape-foo") None
  = Ok {| name := "foo";
          version := Some "git+https://github.com/ApeWorX/ape-foo";
          pip_command := ["python"; "-m"; "pip"] |}
  ∧ validate_name Sample.externals (Some "ape-foo")
      (Some "git+https://github.com/ApeWorX/ape-foo") None
    = Raise (ValueError "Plugin mismatch with remote git version.").
Proof.
  split.
  - apply (proj1 (validate_name_git_version Sample.externals "foo"
                    "git+https://github.com/ApeWorX/ape-foo" None
                    eq_refl eq_refl)).
    reflexivity.
  - apply (proj2 (validate_name_git_version Sample.externals "ape-foo"
                    "git+https://github.com/ApeWorX/ape-foo" None
                    eq_refl eq_refl)).
    reflexivity.
Defined.

End validation.

(** ** Names with a version constraint *)

Section name_and_version.
Import PluginMetadata.

Lemma split_char_cons (c d : ascii) (s : string) :
  PyStr.split (String c "") (String d s)
  = if decide (c = d) then "" :: PyStr.split (String c "") s
    else match PyStr.split (String c "") s with
         | h :: t => String d h :: t
         | [] => [String d ""]
         end.
Proof.
  rewrite split_equation by done. simpl. by case_decide.
Qed.

Lemma split_char_head (c : ascii) (s h : string) (t : list string) :
  PyStr.split (String c "") s = h :: t →
  PyStr.has_char c h = false
  ∧ ∃ post, s = h +:+ post ∧ (post = "" ∨ ∃ post', post = String c post').
Proof.
  revert h t. induction s as [|d s IH]; intros h t.
  { intros [= <- <-]. split; [done|]. exists "". by auto. }
  rewrite split_char_cons. case_decide as Hcd.
  - intros [= <- <-]. split; [done|]. exists (String d s). subst d. by eauto.
  - destruct (PyStr.split (String c "") s) as [|h' t'] eqn:Hsplit.
    { destruct s; [done|]. rewrite split_char_cons in Hsplit.
      by repeat case_match. }
    intros [= <- <-]. destruct (IH h' t' eq_refl) as [Hh (post & Hs & Hpost)].
    split; [simpl; by rewrite decide_False by done|].
    exists post. split; [|done]. by rewrite append_cons, <- Hs.
Qed.

(** The pieces between [@] that are not empty, when there are some: the first
    one comes after leading [@] only and is followed by an [@] or by
    nothing. *)
Lemma split_at_first_piece (s p0 : string) (ps : list string) :
  filter (λ x, x ≠ "") (PyStr.split "@" s) = p0 :: ps →
  p0 ≠ "" ∧ PyStr.has_char "@" p0 = false
  ∧ ∃ pre post,
      s = pre +:+ p0 +:+ post
      ∧ PyStr.all_chars (λ c, bool_decide (c = "@"%char)) pre = true
      ∧ (post = "" ∨ ∃ post', post = String "@" post').
Proof.
  induction s as [|d s IH]; [done|].
  rewrite (split_char_cons "@" d). case_decide as Hd.
  - rewrite filter_cons_False by (intros H; by apply H).
    intros Hf. destruct (IH Hf) as (Hne & Hat & pre & post & -> & Hpre & Hpost).
    split; [done|]. split; [done|]. exists (String d pre), post.
    split; [done|]. split; [|done]. simpl.
    by rewrite bool_decide_eq_true_2 by done.
  - destruct (PyStr.split "@" s) as [|h t] eqn:Hsplit.
    + destruct s; [done|]. rewrite (split_char_cons "@") in Hsplit.
      by repeat case_match.
    + rewrite filter_cons_True by done. intros [= <- <-].
      destruct (split_char_head "@" s h t Hsplit) as [Hh (post & -> & Hpost)].
      split; [done|]. split; [simpl; by rewrite decide_False by done|].
      exists "", post. by split.
Qed.

Lemma split_only_separators (s : string) :
  filter (λ x, x ≠ "") (PyStr.split "@" s) = []
  ↔ PyStr.all_chars (λ c, bool_decide (c = "@"%char)) s = true.
Proof.
  induction s as [|d s IH]; [done|].
  rewrite (split_char_cons "@" d). simpl. case_decide as Hd.
  - rewrite filter_cons_False by (intros H; by apply H).
    rewrite bool_decide_eq_true_2 by done. done.
  - rewrite bool_decide_eq_false_2 by done. simpl.
    destruct (PyStr.split "@" s); by rewrite filter_cons_True.
Qed.

(** X6.  For a value with an [@]: when the value is made of [@] only,
    [_split_name_and_version] raises [IndexError]; otherwise it returns a
    non-empty name without [@], which is the piece of the value that follows
    its leading [@] and stops at the next one, and a version. *)
Theorem _split_name_and_version_at_sign (value : string) :
  PyStr.has_char "@" value = true →
  (PyStr.all_chars (λ c, bool_decide (c = "@"%char)) value = true →
   _split_name_and_version value = Raise IndexError)
  ∧ (PyStr.all_chars (λ c, bool_decide (c = "@"%char)) value = false →
     ∃ name version pre post,
       _split_name_and_version value = Ok (name, Some version)
       ∧ name ≠ "" ∧ PyStr.has_char "@" name = false
       ∧ value = pre +:+ name +:+ post
       ∧ PyStr.all_chars (λ c, bool_decide (c = "@"%char)) pre = true
       ∧ (post = "" ∨ ∃ post', post = String "@" post')).
Proof.
  intros Hat. unfold _split_name_and_version. rewrite Hat.
  split.
  - intros Hall. apply split_only_separators in Hall. by rewrite Hall.
  - intros Hall.
    destruct (filter (λ x, x ≠ "") (PyStr.split "@" value))
      as [|p0 ps] eqn:Hparts.
    { apply split_only_separators in Hparts. congruence. }
    destruct (split_at_first_piece value p0 ps Hparts)
      as (Hne & Hp0 & pre & post & Hvalue & Hpre & Hpost).
    by exists p0, (PyStr.join "@" ps), pre, post.
Qed.

Lemma _split_name_and_version_at_sign_witness :
  _split_name_and_version "@@" = Raise IndexError
  ∧ ∃ name version pre post,
      _split_name_and_version "ape-foo@git+https://github.com/ApeWorX/ape-foo"
      = Ok (name, Some version)
      ∧ name ≠ "" ∧ PyStr.has_char "@" name = false
      ∧ "ape-foo@git+https://github.com/ApeWorX/ape-foo"
        = pre +:+ name +:+ post
      ∧ PyStr.all_chars (λ c, bool_decide (c = "@"%char)) pre = true
      ∧ (post = "" ∨ ∃ post', post = String "@" post').
Proof.
  split.
  - apply (proj1 (_split_name_and_version_at_sign "@@" eq_refl)). reflexivity.
  - apply (proj2 (_split_name_and_version_at_sign
                    "ape-foo@git+https://github.com/ApeWorX/ape-foo" eq_refl)).
    reflexivity.
Defined.

(** A value without [@] that holds a constraint character is cut at the
    first such character. *)
Lemma split_at_constraint (value : string) (c0 : ascii) :
  PyStr.has_char "@" value = false →
  c0 ∈ ["="; "<"; ">"]%char → PyStr.has_char c0 value = true →
  ∃ prefix c rest,
    _split_name_and_version value = Ok (prefix, Some (String c rest))
    ∧ value = prefix +:+ String c rest
    ∧ c ∈ ["="; "<"; ">"]%char
    ∧ ∀ d, d ∈ ["="; "<"; ">"]%char → PyStr.has_char d prefix = false.
Proof.
  intros Hat Hc0 Hin. unfold _split_name_and_version. rewrite Hat.
  assert (c0 ∈ filter (λ c, PyStr.has_char c value) ["="; "<"; ">"]%char)
    as Hmem by (apply list_elem_of_filter; by rewrite Hin).
  destruct (filter (λ c, PyStr.has_char c value) ["="; "<"; ">"]%char)
    as [|c1 chars] eqn:Hchars; [by apply elem_of_nil in Hmem|].
  destruct (omap (λ c, PyStr.index c value) (c1 :: chars))
    as [|i others] eqn:Hidx.
  { assert (c1 ∈ filter (λ c, PyStr.has_char c value) ["="; "<"; ">"]%char)
      as Hc1 by (rewrite Hchars; by left).
    apply list_elem_of_filter in Hc1 as [Hc1 _].
    destruct (has_char_index c1 value) as [j Hj];
      [by destruct (PyStr.has_char c1 value)|].
    simpl in Hidx. by rewrite Hj in Hidx. }
  rewrite <- Hchars in Hidx.
  destruct (cut_at_first_constraint value _ i others Hidx)
    as [Hprefix (c & rest & Hc & Hrest)].
  exists (PyStr.take (foldl Nat.min i others) value), c, rest.
  rewrite Hrest. split; [done|]. split; [|done].
  by rewrite <- Hrest, take_drop.
Qed.

(** X7.  A name given with a version constraint ([==], [<=] or [>=]) and no
    separate version, as on the command line, is cut at the first of [=],
    [<], [>]: the plugin gets the cleaned text before it as name and the
    rest as version, and, unless the constraint would downgrade Ape, the
    install request is the package name followed by that constraint. *)
Theorem validate_name_with_constraint
    (E : Externals) (name0 : string) (pip_command0 : option (list string)) :
  PyStr.startswith name0 "git+" = false →
  PyStr.has_char "@" name0 = false →
  PyStr.contains "==" name0 || PyStr.contains "<=" name0
  || PyStr.contains ">=" name0 = true →
  ∃ prefix c rest plugin,
    name0 = prefix +:+ String c rest
    ∧ c ∈ ["="; "<"; ">"]%char
    ∧ (∀ d, d ∈ ["="; "<"; ">"]%char → PyStr.has_char d prefix = false)
    ∧ validate_name E (Some name0) None pip_command0 = Ok plugin
    ∧ plugin = {| name := clean_plugin_name prefix;
                  version := Some (String c rest);
                  pip_command := default (PIP_COMMAND E) pip_command0 |}
    ∧ (ApeVersion.would_get_downgraded E (String c rest) = Ok false →
       install_str E plugin
       = Ok ("ape-" +:+ clean_plugin_name prefix +:+ String c rest)).
Proof.
  intros Hgit Hat Hconstraint.
  assert (∃ constraint,
            find (λ constraint, PyStr.contains constraint name0)
              ["=="; "<="; ">="; "@git+"] = Some constraint
            ∧ ∃ c0, c0 ∈ ["="; "<"; ">"]%char
                    ∧ PyStr.has_char c0 name0 = true)
    as (constraint & Hfind & c0 & Hc0 & Hin).
  { simpl.
    destruct (PyStr.contains "==" name0) eqn:H1.
    { eexists. split; [done|]. exists "="%char. split; [set_solver|].
      by apply (contains_has_char _ "==" name0). }
    destruct (PyStr.contains "<=" name0) eqn:H2.
    { eexists. split; [done|]. exists "<"%char. split; [set_solver|].
      by apply (contains_has_char _ "<=" name0). }
    destruct (PyStr.contains ">=" name0) eqn:H3; [|done].
    eexists. split; [done|]. exists ">"%char. split; [set_solver|].
    by apply (contains_has_char _ ">=" name0). }
  destruct (split_at_constraint name0 c0 Hat Hc0 Hin)
    as (prefix & c & rest & Hsplit & Hname0 & Hc & Hprefix).
  exists prefix, c, rest. eexists.
  split; [done|]. split; [done|]. split; [done|].
  split.
  { unfold validate_name. rewrite Hgit. cbn [rbind truthy andb negb].
    rewrite Hfind, Hsplit. reflexivity. }
  split; [done|].
  intros Hdown. unfold install_str. cbn [version truthy from_option id].
  assert (PyStr.startswith (String c rest) "git+" = false) as ->.
  { unfold PyStr.startswith. simpl. apply bool_decide_eq_false_2.
    case_decide; [|by intros []]. subst c.
    repeat (apply elem_of_cons in Hc as [Hc|Hc]; [done|]).
    by apply elem_of_nil in Hc. }
  cbn [andb].
  assert (existsb (λ x, PyStr.has_char x (String c rest)) ["="; "<"; ">"]%char
          = true) as ->.
  { apply existsb_exists. exists c. split; [by apply list_elem_of_In|].
    simpl. by rewrite decide_True. }
  cbn [negb]. rewrite Hdown. cbn [rbind]. reflexivity.
Qed.

Lemma validate_name_with_constraint_witness :
  ∃ prefix c rest plugin,
    "ape_foo>=0.8,<0.9" = prefix +:+ String c rest
    ∧ validate_name Sample.externals (Some "ape_foo>=0.8,<0.9") None None
      = Ok plugin
    ∧ plugin = {| name := clean_plugin_name prefix;
                  version := Some (String c rest);
                  pip_command := ["python"; "-m"; "pip"] |}
    ∧ install_str Sample.externals plugin
      = Ok ("ape-" +:+ clean_plugin_name prefix +:+ String c rest).
Proof.
  destruct (validate_name_with_constraint Sample.externals
              "ape_foo>=0.8,<0.9" None eq_refl eq_refl eq_refl)
    as (prefix & c & rest & plugin & Hname & Hc & Hprefix & Hvalid & Hplugin
        & Hinstall).
  exists prefix, c, rest, plugin.
  split; [exact Hname|]. split; [exact Hvalid|]. split; [exact Hplugin|].
  apply Hinstall.
  assert (validate_name Sample.externals (Some "ape_foo>=0.8,<0.9") None None
          = Ok {| name := "foo"; version := Some ">=0.8,<0.9";
                  pip_command := ["python"; "-m"; "pip"] |})
    as Hconcrete by reflexivity.
  rewrite Hconcrete, Hplugin in Hvalid.
  assert (String c rest = ">=0.8,<0.9") as -> by congruence.
  reflexivity.
Defined.

End name_and_version.

(** ** Install requests *)

Section install_requests.
Import PluginMetadata.

(** X8.  From Ape 1.0 on no requested version is refused:
    [install_str] never raises [PluginVersionError], and for a requested
    version that is not a remote and whose specifiers all parse it returns
    the package name followed by the normalized specifier. *)
Theorem install_str_after_one
    (E : Externals) (self : t) :
  (1 ≤ ApeVersion.major E)%N →
  ¬ raises_PluginVersionError (install_str E self)
  ∧ ∀ v spec_set,
      version self = Some v → v ≠ "" → PyStr.startswith v "git+" = false →
      SpecifierSet E (normalized_specifier v) = Some spec_set →
      Forall (λ spec, is_Some (Version E (packaging.version spec))) spec_set →
      install_str E self = Ok (package_name self +:+ normalized_specifier v).
Proof.
  intros Hmajor.
  assert (Hnot : ∀ text, ApeVersion.would_get_downgraded E text ≠ Ok true).
  { intros text Htrue. unfold ApeVersion.would_get_downgraded in Htrue.
    destruct (SpecifierSet E text) as [spec_set|]; [|done].
    apply would_get_downgraded_specs_true in Htrue as [H0 _]. lia. }
  assert (Hshape : ∀ v, version self = Some v → v ≠ "" →
            PyStr.startswith v "git+" = false →
            install_str E self
            = (downgraded ← ApeVersion.would_get_downgraded E
                              (normalized_specifier v) ;;;
               if (downgraded : bool)
               then Raise (PluginVersionError
                             "install" "Doing so will downgrade Ape's version."
                             "Downgrade Ape first.")
               else Ok (package_name self +:+ normalized_specifier v))).
  { intros v Hv Hne Hgit. unfold install_str, normalized_specifier.
    rewrite Hv, (truthy_nonempty v Hne). simpl. rewrite Hgit. simpl.
    destruct (PyStr.has_char "=" v || (PyStr.has_char "<" v
              || (PyStr.has_char ">" v || false))) eqn:Hchars; simpl;
      (destruct (ApeVersion.would_get_downgraded E _) as [[]|e]; simpl;
       [done| |done]).
    - by rewrite decide_False.
    - done. }
  split.
  - intros (op & reason & res & Hraise).
    destruct (version self) as [v|] eqn:Hv.
    + destruct (decide (v = "")) as [->|Hne].
      { unfold install_str in Hraise. rewrite Hv in Hraise. simpl in Hraise.
        by rewrite decide_False in Hraise by apply version_range_nonempty. }
      destruct (PyStr.startswith v "git+") eqn:Hgit.
      { unfold install_str in Hraise.
        rewrite Hv, (truthy_nonempty v Hne) in Hraise. simpl in Hraise.
        by rewrite Hgit in Hraise. }
      rewrite (Hshape v eq_refl Hne Hgit) in Hraise.
      destruct (ApeVersion.would_get_downgraded E (normalized_specifier v))
        as [[]|e] eqn:Hd; simpl in Hraise; [by eapply Hnot|done|].
      apply (would_get_downgraded_not_PluginVersionError E
               (normalized_specifier v)).
      rewrite Hd. injection Hraise as ->. by do 3 eexists.
    + unfold install_str in Hraise. rewrite Hv in Hraise. simpl in Hraise.
      by rewrite decide_False in Hraise by apply version_range_nonempty.
  - intros v spec_set Hv Hne Hgit Hset Hparsed.
    rewrite (Hshape v Hv Hne Hgit).
    unfold ApeVersion.would_get_downgraded. rewrite Hset.
    destruct (would_get_downgraded_specs_parsed E spec_set Hparsed)
      as [_ [Htrue|Hfalse]].
    + apply would_get_downgraded_specs_true in Htrue as [H0 _]. lia.
    + by rewrite Hfalse.
Qed.

Lemma install_str_after_one_witness :
  ¬ raises_PluginVersionError
      (install_str Sample.externals_one
         {| name := "foo"; version := Some "0.1.0";
            pip_command := ["uv"; "pip"] |})
  ∧ install_str Sample.externals_one
      {| name := "foo"; version := Some "0.1.0"; pip_command := ["uv"; "pip"] |}
    = Ok "ape-foo==0.1.0".
Proof.
  destruct (install_str_after_one Sample.externals_one
              {| name := "foo"; version := Some "0.1.0";
                 pip_command := ["uv"; "pip"] |})
    as [Hnot Hreturns].
  { by vm_compute. }
  split; [exact Hnot|].
  apply (Hreturns "0.1.0"
           [ {| packaging.operator := "=="; packaging.version := "0.1.0" |} ]);
    try reflexivity; [discriminate|].
  repeat constructor. by eexists.
Defined.

(** X9.  Without a pip command both builders raise [IndexError], and so does
    [_prepare_install] for a plugin that is not a core plugin and is not
    refused for its version. *)
Theorem empty_pip_command_raises
    (E : Externals) (self : t) (verb : string)
    (python_location : option string) (extra_args : option (list string))
    (upgrade skip_confirmation : bool) :
  pip_command self = [] →
  prepare_package_manager_args self verb python_location extra_args
  = Raise IndexError
  ∧ _get_uninstall_args self python_location = Raise IndexError
  ∧ (in_core self = false →
     bool_decide (version self ≠ None) && upgrade = false →
     (_prepare_install E self upgrade skip_confirmation python_location).2
     = Raise IndexError).
Proof.
  intros Hcmd.
  assert (Hprepare : ∀ verb extra,
            prepare_package_manager_args self verb python_location extra
            = Raise IndexError).
  { intros ? ?. unfold prepare_package_manager_args. by rewrite Hcmd. }
  split; [apply Hprepare|]. split.
  - unfold _get_uninstall_args. by rewrite Hprepare.
  - intros Hcore Hversion. unfold _prepare_install.
    rewrite Hcore, Hversion.
    destruct (is_third_party E self); outcome; by rewrite Hprepare.
Qed.

Lemma empty_pip_command_raises_witness :
  prepare_package_manager_args
    {| name := "foo"; version := None; pip_command := [] |}
    "install" None None = Raise IndexError
  ∧ _get_uninstall_args
      {| name := "foo"; version := None; pip_command := [] |} None
    = Raise IndexError
  ∧ (_prepare_install Sample.externals
       {| name := "foo"; version := None; pip_command := [] |}
       true false None).2 = Raise IndexError.
Proof.
  destruct (empty_pip_command_raises Sample.externals
              {| name := "foo"; version := None; pip_command := [] |}
              "install" None None true false eq_refl)
    as (Hprepare & Huninstall & Hinstall).
  split; [exact Hprepare|]. split; [exact Huninstall|].
  apply Hinstall; reflexivity.
Defined.

End install_requests.

(** ** Installing without upgrade *)

Section install_without_upgrade.
Import PluginMetadata.

(** X10.  Without [upgrade], for a plugin that is not a core plugin:
    [_prepare_install] returns a command exactly when the plugin can be
    installed (it is not installed, or a version is requested that differs
    from the installed one) and the plugin is available, or confirmation is
    skipped, or the user confirms.  The command is the [install] arguments
    followed by the install request and [--quiet], with no [version_before]
    entry; an exception of [install_str] is passed on; in the other case the
    result is [None] and the "already installed" warning is logged. *)
Theorem _prepare_install_without_upgrade
    (E : Externals) (self : t) (skip_confirmation : bool)
    (python_location : option string) (pip_arguments : list string) :
  in_core self = false →
  prepare_package_manager_args self "install" python_location None
  = Ok pip_arguments →
  let accepted :=
    is_available E self || skip_confirmation
    || click_confirm E ("Install the '" +:+ name self +:+ "' plugin?") in
  let run := _prepare_install E self false skip_confirmation python_location in
  (can_install E self = true
   ↔ is_installed E self = false
     ∨ (version self ≠ None ∧ version self ≠ current_version E self))
  ∧ (can_install E self && accepted = true →
     (∀ request, install_str E self = Ok request →
        ∃ d, run.2 = Ok (Some d)
             ∧ d !! "args"
               = Some (ListOfStr (pip_arguments ++ [request; "--quiet"]))
             ∧ d !! "version_before" = None)
     ∧ (∀ e, install_str E self = Raise e → run.2 = Raise e))
  ∧ (can_install E self && accepted = false →
     run.2 = Ok None
     ∧ (WARNING,
        "'" +:+ name self
        +:+ "' is already installed. Did you mean to include '--upgrade'?")
       ∈ run.1).
Proof.
  intros Hcore Hargs accepted run. subst accepted run. split; [|split].
  - unfold can_install. rewrite orb_true_iff, negb_true_iff.
    destruct (version self) as [v|]; [|intuition congruence].
    rewrite negb_true_iff, bool_decide_eq_false. intuition congruence.
  - intros Hgo. unfold _prepare_install.
    rewrite Hcore, andb_false_r.
    split.
    + intros request Hrequest. eexists.
      split; [|split; [apply lookup_insert_eq|]].
      * destruct (is_third_party E self); outcome; rewrite Hargs; outcome;
          rewrite Hgo; outcome; rewrite Hrequest; outcome; reflexivity.
      * rewrite lookup_insert_ne by done. rewrite lookup_insert_ne by done.
        apply lookup_empty.
    + intros e Hraise.
      destruct (is_third_party E self); outcome; rewrite Hargs; outcome;
        rewrite Hgo; outcome; rewrite Hraise; reflexivity.
  - intros Hgo. unfold _prepare_install.
    rewrite Hcore, andb_false_r. rewrite Hargs.
    destruct (is_third_party E self); unfold lbind, lift, lret, logger;
      simpl; rewrite Hgo; simpl; (split; [done|]); set_solver.
Qed.

Lemma _prepare_install_without_upgrade_witness :
  (∃ d,
     (_prepare_install Sample.externals
        {| name := "vyper"; version := None; pip_command := ["uv"; "pip"] |}
        false false None).2 = Ok (Some d)
     ∧ d !! "args"
       = Some (ListOfStr ["uv"; "pip"; "install"; "ape-vyper>=0.8,<0.9";
                          "--quiet"])
     ∧ d !! "version_before" = None)
  ∧ (_prepare_install Sample.externals
       {| name := "solidity"; version := None; pip_command := ["uv"; "pip"] |}
       false true None).2 = Ok None.
Proof.
  split.
  - apply (proj1 (proj1 (proj2 (_prepare_install_without_upgrade
             Sample.externals
             {| name := "vyper"; version := None; pip_command := ["uv"; "pip"] |}
             false None ["uv"; "pip"; "install"] eq_refl eq_refl))
             eq_refl) "ape-vyper>=0.8,<0.9" eq_refl).
  - apply (proj2 (proj2 (_prepare_install_without_upgrade
             Sample.externals
             {| name := "solidity"; version := None;
                pip_command := ["uv"; "pip"] |}
             true None ["uv"; "pip"; "install"] eq_refl eq_refl))
             eq_refl).
Defined.

End install_without_upgrade.

(** ** Looking plugins up *)

Section lookup.
Import PluginMetadata.

Lemma startswith_prefixed (p s : string) : PyStr.startswith (p +:+ s) p = true.
Proof.
  unfold PyStr.startswith. apply bool_decide_eq_true_2. exists s.
  induction p as [|c p IH]; [done|].
  rewrite append_cons. simpl. by rewrite decide_True.
Qed.

(** A plugin [get_plugin] returns is stored under a key that starts with
    [ape_]. *)
Lemma get_plugin_keys
    (self : PluginMetadataList.t) (name0 : string) (check_available : bool)
    (plugin : t) :
  get_plugin self name0 check_available = Some plugin →
  ∃ g key,
    PyStr.startswith key "ape_" = true ∧ plugins_of self g !! key = Some plugin.
Proof.
  unfold get_plugin.
  set (key := if PyStr.startswith name0 "ape_" then name0 else "ape_" +:+ name0).
  assert (PyStr.startswith key "ape_" = true) as Hkey.
  { subst key. destruct (PyStr.startswith name0 "ape_") eqn:Hsw; [done|].
    apply startswith_prefixed. }
  destruct (plugins (PluginMetadataList.core self) !! key) eqn:Hcore.
  { intros [= <-]. by exists CORE, key. }
  destruct (plugins (PluginMetadataList.installed self) !! key) eqn:Hinst.
  { intros [= <-]. by exists INSTALLED, key. }
  destruct (plugins (PluginMetadataList.third_party self) !! key) eqn:Hthird.
  { intros [= <-]. by exists THIRD_PARTY, key. }
  destruct check_available; [|done].
  intros Havail. by exists AVAILABLE, key.
Qed.

(** X11.  [get_plugin] looks a name up under its [ape_]-prefixed form only,
    and a name and its prefixed form give the same answer.  The groups are
    searched in the order core, installed, third-party, available: the
    plugin of the core group when it has the key; else the one of the
    installed group when it has the key; else the one of the third-party
    group when it has the key; else, when the available group is asked for,
    what that group has under the key, and nothing when it is not asked
    for. *)
Theorem get_plugin_by_module_name
    (self : PluginMetadataList.t) (name0 : string) (check_available : bool) :
  let key := if PyStr.startswith name0 "ape_" then name0 else "ape_" +:+ name0 in
  PyStr.startswith key "ape_" = true
  ∧ get_plugin self key check_available = get_plugin self name0 check_available
  ∧ (∀ plugin,
       plugins_of self CORE !! key = Some plugin →
       get_plugin self name0 check_available = Some plugin)
  ∧ (∀ plugin,
       plugins_of self CORE !! key = None →
       plugins_of self INSTALLED !! key = Some plugin →
       get_plugin self name0 check_available = Some plugin)
  ∧ (∀ plugin,
       plugins_of self CORE !! key = None →
       plugins_of self INSTALLED !! key = None →
       plugins_of self THIRD_PARTY !! key = Some plugin →
       get_plugin self name0 check_available = Some plugin)
  ∧ (plugins_of self CORE !! key = None →
     plugins_of self INSTALLED !! key = None →
     plugins_of self THIRD_PARTY !! key = None →
     get_plugin self name0 check_available
     = if check_available then plugins_of self AVAILABLE !! key else None).
Proof.
  intros key.
  assert (PyStr.startswith key "ape_" = true) as Hkey.
  { subst key. destruct (PyStr.startswith name0 "ape_") eqn:Hsw; [done|].
    apply startswith_prefixed. }
  split; [done|]. split.
  { unfold get_plugin at 1. rewrite Hkey. reflexivity. }
  unfold get_plugin. fold key. cbn [plugins_of].
  split; [by intros plugin ->|].
  split; [by intros plugin -> ->|].
  split; [by intros plugin -> -> ->|].
  by intros -> -> ->.
Qed.

(** Every key of a group built by the loop is the name part of an entry. *)
Lemma from_package_names_loop_keys
    (E : Externals) (include_available : bool) (packages : list string) :
  ∀ trusted_list groups groups' after,
    (PluginMetadataList.from_package_names_loop
       E include_available trusted_list packages groups).2
    = Ok (groups', after) →
    ∀ g k, is_Some (plugins_of groups' g !! k) →
           is_Some (plugins_of groups g !! k)
           ∨ ∃ package_id,
               package_id ∈ packages
               ∧ getitem_first (PyStr.split "==" package_id) = Ok k.
Proof.
  induction packages as [|package_id packages IH];
    intros trusted_list groups groups' after.
  { intros [= <- <-]. by left. }
  rewrite from_package_names_loop_cons, from_package_names_body_outcome.
  cbn zeta.
  destruct (getitem_first (PyStr.split "==" package_id)) as [key|e] eqn:Hkey;
    [|done].
  cbn [rbind].
  destruct (validate_name E _ _ None) as [plugin|e]; [|done].
  cbn [rbind fst snd]. intros Hloop g k Hk.
  destruct (IH _ _ _ _ Hloop g k Hk) as [Hold|(e & He & Hek)].
  - apply place_lookup_is_Some in Hold as [[_ <-]|Hold]; [|by left].
    right. exists package_id. split; [by left|done].
  - right. exists e. split; [by right|done].
Qed.

(** X12.  The groups [from_package_names] returns are keyed by the names as
    they were given, so when no given name starts with [ape_], [get_plugin]
    finds nothing in them, whatever name it is asked for. *)
Theorem get_plugin_after_from_package_names
    (E : Externals) (include_available : bool)
    (trusted_list : option Iterable) (packages : list string)
    (groups : PluginMetadataList.t) :
  (PluginMetadataList.from_package_names
     E include_available trusted_list packages).2 = Ok groups →
  (∀ package_id key,
     package_id ∈ packages →
     getitem_first (PyStr.split "==" package_id) = Ok key →
     PyStr.startswith key "ape_" = false) →
  ∀ name0 check_available, get_plugin groups name0 check_available = None.
Proof.
  intros Hrun Hnames name0 check_available.
  destruct (get_plugin groups name0 check_available) as [plugin|] eqn:Hget;
    [|done].
  destruct (get_plugin_keys groups name0 check_available plugin Hget)
    as (g & key & Hkey & Hlookup).
  rewrite from_package_names_outcome in Hrun.
  destruct (PluginMetadataList.from_package_names_loop _ _ _ _ _).2
    as [[groups0 after]|e] eqn:Hloop; [|done].
  cbn [rbind fst] in Hrun. injection Hrun as ->.
  destruct (from_package_names_loop_keys E include_available packages
              _ _ _ _ Hloop g key) as [[? Hempty]|(e & He & Hek)];
    [by eexists| |].
  - destruct g; simpl in Hempty; by rewrite lookup_empty in Hempty.
  - by rewrite (Hnames e key He Hek) in Hkey.
Qed.

Lemma get_plugin_after_from_package_names_witness :
  ∃ groups,
    (PluginMetadataList.from_package_names Sample.externals true None
       ["ape-solidity==0.8.2"; "foo"]).2 = Ok groups
    ∧ name <$> plugins (PluginMetadataList.installed groups) !! "ape-solidity"
      = Some "solidity"
    ∧ get_plugin groups "solidity" true = None.
Proof.
  eexists. split; [reflexivity|]. split; [reflexivity|].
  apply (get_plugin_after_from_package_names Sample.externals true None
           ["ape-solidity==0.8.2"; "foo"] _ eq_refl).
  intros package_id key Hin.
  repeat (apply elem_of_cons in Hin as [->|Hin]; [by intros [= <-]|]).
  by apply elem_of_nil in Hin.
Defined.

End lookup.

(** ** What the classification logs *)

Section classification_log.
Import PluginMetadata.

Lemma lbind_log {A B} (m : Logged A) (k : A → Logged B) :
  (lbind m k).1
  = m.1 ++ match m.2 with
           | Ok a => (k a).1
           | Raise _ => []
           end.
Proof.
  destruct m as [log [a|e]]; unfold lbind; simpl.
  - by destruct (k a).
  - by rewrite app_nil_r.
Qed.

(** Whether an entry is logged does not depend on the trusted list: a
    plugin that is in no group is not installed. *)
Lemma stored_in_None
    (E : Externals) (include_available : bool)
    (trusted_list trusted_list' : option Iterable) (plugin : t) :
  stored_in E include_available trusted_list plugin = None →
  stored_in E include_available trusted_list' plugin = None.
Proof.
  unfold stored_in. destruct (in_core plugin); [done|].
  destruct (include_available && _ && _); [done|].
  destruct (is_installed E plugin); [|done]. cbn [andb negb].
  by destruct (check_trusted E plugin false trusted_list).1.
Qed.

Lemma entry_log_trusted_list
    (E : Externals) (include_available : bool)
    (trusted_list trusted_list' : option Iterable) (package_id : string) :
  entry_log E include_available trusted_list package_id
  = entry_log E include_available trusted_list' package_id.
Proof.
  unfold entry_log.
  destruct (entry_plugin E package_id) as [[key plugin]|e]; [|done].
  destruct (stored_in E include_available trusted_list plugin) eqn:Hstored,
    (stored_in E include_available trusted_list' plugin) eqn:Hstored';
    try done.
  - by rewrite (stored_in_None E _ _ trusted_list _ Hstored') in Hstored.
  - by rewrite (stored_in_None E _ _ trusted_list' _ Hstored) in Hstored'.
Qed.

Lemma from_package_names_body_log
    (E : Externals) (include_available : bool)
    (trusted_list : option Iterable)
    (groups : PluginMetadataList.t) (package_id : string) :
  (PluginMetadataList.from_package_names_body
     E include_available trusted_list groups package_id).1
  = entry_log E include_available trusted_list package_id.
Proof.
  unfold PluginMetadataList.from_package_names_body, entry_log, entry_plugin.
  rewrite lbind_log. cbn zeta.
  destruct (getitem_first (PyStr.split "==" package_id)) as [key|e];
    [|done].
  cbn [lift fst snd rbind app]. rewrite lbind_log.
  destruct (validate_name E _ _ None) as [plugin|e]; [|done].
  cbn [lift fst snd rbind app]. unfold stored_in.
  destruct (in_core plugin); [done|].
  destruct (check_trusted E plugin false trusted_list) as [trusted after].
  destruct include_available, (is_available E plugin), (is_installed E plugin),
    trusted; done.
Qed.

Lemma from_package_names_loop_log
    (E : Externals) (include_available : bool)
    (trusted_list0 : option Iterable) (packages : list string) :
  ∀ trusted_list groups state,
    (PluginMetadataList.from_package_names_loop
       E include_available trusted_list packages groups).2 = Ok state →
    (PluginMetadataList.from_package_names_loop
       E include_available trusted_list packages groups).1
    = flat_map (entry_log E include_available trusted_list0) packages.
Proof.
  induction packages as [|package_id packages IH];
    intros trusted_list groups state; [done|].
  rewrite from_package_names_loop_cons.
  cbn [PluginMetadataList.from_package_names_loop flat_map].
  rewrite lbind_log, from_package_names_body_log.
  rewrite (entry_log_trusted_list E _ trusted_list trusted_list0).
  destruct (PluginMetadataList.from_package_names_body _ _ _ groups package_id).2
    as [[groups1 after]|e]; [|done].
  cbn [rbind fst snd]. intros Hloop. by rewrite (IH _ _ _ Hloop).
Qed.

(** X13.  When [from_package_names] returns, its log holds, in the order of
    the entries, one error record for each entry whose plugin is stored in
    no group, and nothing else. *)
Theorem from_package_names_log
    (E : Externals) (include_available : bool)
    (trusted_list : option Iterable) (packages : list string)
    (groups : PluginMetadataList.t) :
  (PluginMetadataList.from_package_names
     E include_available trusted_list packages).2 = Ok groups →
  (PluginMetadataList.from_package_names
     E include_available trusted_list packages).1
  = flat_map (entry_log E include_available trusted_list) packages.
Proof.
  rewrite from_package_names_outcome.
  unfold PluginMetadataList.from_package_names. rewrite lbind_log.
  destruct (PluginMetadataList.from_package_names_loop _ _ _ _ _).2
    as [[groups0 after]|e] eqn:Hloop; [|done].
  intros _. cbn [lret fst]. rewrite app_nil_r.
  by apply (from_package_names_loop_log E include_available trusted_list
              packages trusted_list _ _ Hloop).
Qed.

Lemma from_package_names_log_witness :
  (PluginMetadataList.from_package_names Sample.externals true None
     ["ape-solidity==0.8.2"; "bar"; "ape_test"; "baz==1"]).1
  = [(ERROR, "'bar' is not a plugin."); (ERROR, "'baz' is not a plugin.")].
Proof.
  rewrite (from_package_names_log Sample.externals true None
             ["ape-solidity==0.8.2"; "bar"; "ape_test"; "baz==1"] _ eq_refl).
  reflexivity.
Defined.

End classification_log.

(** ** Results of the package manager *)

Section result_handlers.
Import PluginMetadata.

(** X14.  The handlers report success as follows: an install when the plugin
    is installed afterwards and the exit status is 0, an uninstall when the
    plugin is no longer installed and the exit status is 0, an upgrade when
    the exit status is 0, whatever the versions; an install and an uninstall
    never both succeed on one installation; and a handler logs an error
    record exactly when it reports failure. *)
Theorem result_handlers_report
    (E : Externals) (plugin : t) (result : Z) (version_before : option string) :
  let installed := check_installed E plugin false in
  let is_error (record : LogLevel * string) :=
    match record.1 with ERROR => true | _ => false end in
  (handle_install_result E plugin result).2
  = Ok (installed && bool_decide (result = 0%Z))
  ∧ (handle_uninstall_result E plugin result).2
    = Ok (negb installed && bool_decide (result = 0%Z))
  ∧ (handle_upgrade_result plugin result version_before).2
    = Ok (bool_decide (result = 0%Z))
  ∧ ¬ ((handle_install_result E plugin result).2 = Ok true
       ∧ (handle_uninstall_result E plugin result).2 = Ok true)
  ∧ existsb is_error (handle_install_result E plugin result).1
    = negb (installed && bool_decide (result = 0%Z))
  ∧ existsb is_error (handle_uninstall_result E plugin result).1
    = negb (negb installed && bool_decide (result = 0%Z))
  ∧ existsb is_error (handle_upgrade_result plugin result version_before).1
    = negb (bool_decide (result = 0%Z)).
Proof.
  intros installed is_error. subst installed is_error.
  unfold handle_install_result, handle_uninstall_result, handle_upgrade_result.
  destruct (check_installed E plugin false), (bool_decide (result = 0%Z));
    cbn [negb andb]; repeat split; try done;
    try (intros [? ?]; done);
    destruct (version plugin) as [now|]; try done;
    destruct (bool_decide (version_before = Some now)); try done;
    destruct (truthy (Some now)); done.
Qed.

End result_handlers.

(** ** Printing a plugin and reading it back *)

Section round_trip.
Import PluginMetadata.

Lemma append_nil_r (s : string) : s +:+ "" = s.
Proof. induction s as [|c s IH]; [done|]. by rewrite append_cons, IH. Qed.

Lemma contains_cons_false (sub : string) (c : ascii) (s : string) :
  PyStr.contains sub (String c s) = false →
  PyStr.strip_prefix sub (String c s) = None ∧ PyStr.contains sub s = false.
Proof.
  simpl. destruct (PyStr.startswith (String c s) sub) eqn:Hsw; [done|].
  intros Hs. split; [|done]. unfold PyStr.startswith in Hsw.
  apply bool_decide_eq_false in Hsw.
  destruct (PyStr.strip_prefix sub (String c s)); [|done].
  destruct Hsw. by eexists.
Qed.

Lemma replace_absent (old new s : string) :
  old ≠ "" → PyStr.contains old s = false → PyStr.replace old new s = s.
Proof.
  intros Hold. induction s as [|c s IH]; intros Hs.
  { rewrite replace_equation by done. by destruct old. }
  apply contains_cons_false in Hs as [Hprefix Hs].
  rewrite replace_equation, Hprefix by done. by rewrite IH.
Qed.

Lemma split_absent (sep s : string) :
  sep ≠ "" → PyStr.contains sep s = false → PyStr.split sep s = [s].
Proof.
  intros Hsep. induction s as [|c s IH]; intros Hs.
  { rewrite split_equation by done. by destruct sep. }
  apply contains_cons_false in Hs as [Hprefix Hs].
  rewrite split_equation, Hprefix by done. by rewrite IH.
Qed.

Lemma split_equals_after_name (name0 rest : string) :
  PyStr.has_char "=" name0 = false →
  PyStr.split "==" (name0 +:+ "==" +:+ rest) = name0 :: PyStr.split "==" rest.
Proof.
  induction name0 as [|c name0 IH]; intros Hname.
  { by rewrite (split_equation "==" ("" +:+ "==" +:+ rest)) by done. }
  simpl in Hname. case_decide as Hc; [done|].
  rewrite append_cons, split_equation by done.
  assert (PyStr.strip_prefix "==" (String c (name0 +:+ "==" +:+ rest)) = None)
    as ->.
  { simpl. by rewrite decide_False by (intros <-; by apply Hc). }
  by rewrite IH.
Qed.

Lemma all_chars_has_char (P : ascii → bool) (c : ascii) (s : string) :
  P c = false → PyStr.all_chars P s = true → PyStr.has_char c s = false.
Proof.
  intros Hc. induction s as [|d s IH]; simpl; [done|].
  intros [Hd Hs]%andb_true_iff. case_decide; [congruence|]. by apply IH.
Qed.

Lemma clean_plugin_name_clean (name0 : string) :
  PyStr.has_char "_" name0 = false → PyStr.contains "ape-" name0 = false →
  clean_plugin_name name0 = name0.
Proof.
  intros Hunderscore Hprefix. unfold clean_plugin_name.
  assert (PyStr.replace "_" "-" name0 = name0) as ->.
  { clear Hprefix. induction name0 as [|c name0 IH]; [done|].
    simpl in Hunderscore. case_decide as Hc; [done|].
    rewrite replace_char_cons, decide_False by (intros <-; by apply Hc).
    by rewrite IH. }
  by apply replace_absent.
Qed.

(** X15.  A plugin whose name is a cleaned package name, with no version or
    with a version that starts with a digit and has no [==] in it, is read
    back from its printed form: the loop of [from_package_names] makes of
    [str(plugin)] the key [name] and a plugin with the same name and
    version. *)
Theorem entry_plugin_of_str
    (E : Externals) (plugin : t) :
  PyStr.all_chars is_name_char (name plugin) = true →
  PyStr.has_char "_" (name plugin) = false →
  PyStr.contains "ape-" (name plugin) = false →
  (version plugin = None
   ∨ ∃ c rest,
       version plugin = Some (String c rest)
       ∧ PyStr.isnumeric c = true
       ∧ PyStr.contains "==" (String c rest) = false) →
  entry_plugin E (__str__ plugin)
  = Ok (name plugin,
        {| name := name plugin;
           version := version plugin;
           pip_command := PIP_COMMAND E |}).
Proof.
  intros Hchars Hunderscore Hprefix Hversion.
  assert (PyStr.contains "==" (name plugin) = false) as Hequals
    by by apply name_chars_without.
  unfold entry_plugin.
  destruct Hversion as [Hnone|(c & rest & Hsome & Hnumeric & Hrest)].
  - unfold __str__. rewrite Hnone. cbn [truthy andb].
    rewrite append_nil_r, split_absent by done.
    cbn [getitem_first rbind length].
    rewrite decide_False by done.
    rewrite (validate_name_package_name E (name plugin) None) by done.
    cbn [rbind]. by rewrite clean_plugin_name_clean.
  - assert (PyStr.startswith (String c rest) "git+" = false) as Hgit.
    { unfold PyStr.startswith. simpl. apply bool_decide_eq_false_2.
      case_decide as Hc; [|by intros []]. by subst c. }
    unfold __str__. rewrite Hsome. cbn [truthy andb from_option id].
    rewrite Hgit, Hnumeric.
    rewrite split_equals_after_name
      by (by apply (all_chars_has_char is_name_char)).
    rewrite split_absent by done.
    cbn [getitem_first rbind length].
    rewrite decide_True by done. cbn [lookup list_lookup].
    rewrite (validate_name_package_name E (name plugin) (Some (String c rest)));
      [|done|by intros ? [= <-]].
    cbn [rbind]. by rewrite clean_plugin_name_clean.
Qed.

Lemma entry_plugin_of_str_witness :
  entry_plugin Sample.externals
    (__str__ {| name := "foo-bar"; version := Some "0.8.1";
                pip_command := ["uv"; "pip"] |})
  = Ok ("foo-bar",
        {| name := "foo-bar"; version := Some "0.8.1";
           pip_command := ["python"; "-m"; "pip"] |}).
Proof.
  apply (entry_plugin_of_str Sample.externals
           {| name := "foo-bar"; version := Some "0.8.1";
              pip_command := ["uv"; "pip"] |});
    try reflexivity.
  right. exists "0"%char, ".8.1". by repeat split.
Defined.

End round_trip.

(** ** The columns of the plugin list *)

Section columns.
Import PluginMetadata.

Lemma length_append (s t : string) :
  String.length (s +:+ t) = String.length s + String.length t.
Proof.
  induction s as [|c s IH]; [done|]. rewrite append_cons. simpl. by rewrite IH.
Qed.

Lemma spaces_length (spacing : Z) :
  String.length (spaces spacing) = Z.to_nat spacing.
Proof.
  unfold spaces. induction (Z.to_nat spacing) as [|n IH]; [done|].
  simpl. by rewrite IH.
Qed.

Lemma spaces_nonpositive (spacing : Z) : (spacing ≤ 0)%Z → spaces spacing = "".
Proof. intros Hle. unfold spaces. by replace (Z.to_nat spacing) with 0 by lia. Qed.

Lemma max_name_length_bound (group : PluginGroup) (key : string) (plugin : t) :
  plugins group !! key = Some plugin →
  String.length (name plugin) ≤ max_name_length group.
Proof.
  intros Hkey. unfold max_name_length.
  rewrite decide_False by (intros Hempty; by rewrite Hempty, lookup_empty in Hkey).
  apply max_list_elem_of_le, list_elem_of_fmap.
  exists (key, plugin). split; [done|]. by apply elem_of_map_to_list.
Qed.

(** X16.  [max_name_length] is 0 for an empty group; otherwise it is the
    length of the name of some plugin of the group, and no plugin of the
    group has a longer name. *)
Theorem max_name_length_is_greatest (group : PluginGroup) :
  (plugins group = ∅ → max_name_length group = 0)
  ∧ (plugins group ≠ ∅ →
     ∃ key plugin,
       plugins group !! key = Some plugin
       ∧ String.length (name plugin) = max_name_length group)
  ∧ (∀ key plugin,
       plugins group !! key = Some plugin →
       String.length (name plugin) ≤ max_name_length group).
Proof.
  split; [|split].
  - intros Hempty. unfold max_name_length. by rewrite decide_True.
  - intros Hne. unfold max_name_length. rewrite decide_False by done.
    assert ((λ entry : string * t, String.length (name entry.2))
              <$> map_to_list (plugins group) ≠ []) as Hlist.
    { intros Hnil%fmap_nil_inv. by apply map_to_list_empty_iff in Hnil. }
    apply max_list_elem_of, list_elem_of_fmap in Hlist
      as ([key plugin] & Hmax & Hin).
    exists key, plugin. split; [by apply elem_of_map_to_list|done].
  - apply max_name_length_bound.
Qed.

Lemma max_name_length_is_greatest_witness :
  max_name_length {| plugin_type := CORE; plugins := ∅ |} = 0
  ∧ ∃ key plugin,
      plugins
        {| plugin_type := CORE;
           plugins :=
             <["ape_test" := {| name := "test"; version := None;
                                pip_command := ["uv"; "pip"] |}]> ∅ |}
      !! key = Some plugin
      ∧ String.length (name plugin)
        = max_name_length
            {| plugin_type := CORE;
               plugins :=
                 <["ape_test" := {| name := "test"; version := None;
                                    pip_command := ["uv"; "pip"] |}]> ∅ |}.
Proof.
  split.
  - by apply (proj1 (max_name_length_is_greatest
                       {| plugin_type := CORE; plugins := ∅ |})).
  - apply (proj1 (proj2 (max_name_length_is_greatest
             {| plugin_type := CORE;
                plugins :=
                  <["ape_test" := {| name := "test"; version := None;
                                     pip_command := ["uv"; "pip"] |}]> ∅ |}))).
    simpl. apply insert_non_empty.
Defined.

(** X17.  In the default listing of a group, with the default maximal
    length, the version of every plugin of the group starts at the same
    column, six characters after the longest name: after at least four
    spaces when names are listed, and after as many spaces as the name is
    shorter than the longest one when package names are listed, so that the
    version of a plugin with a longest name follows its package name
    at once. *)
Theorem _get_default_formatted_str_line_columns
    (E : Externals) (group : PluginGroup) (key : string) (plugin : t)
    (v : string) :
  plugins group !! key = Some plugin →
  (if truthy (version plugin) then version plugin
   else get_package_version E (package_name plugin)) = Some v →
  v ≠ "" →
  let longest := max_name_length group in
  let shorter := longest - String.length (name plugin) in
  _get_default_formatted_str_line E (Z.of_nat longest) true false plugin
  = "  " +:+ name plugin +:+ spaces (Z.of_nat (shorter + 4)) +:+ v
  ∧ _get_default_formatted_str_line E (Z.of_nat longest) true true plugin
    = "  " +:+ package_name plugin +:+ spaces (Z.of_nat shorter) +:+ v
  ∧ String.length
      ("  " +:+ name plugin +:+ spaces (Z.of_nat (shorter + 4)))
    = longest + 6
  ∧ String.length
      ("  " +:+ package_name plugin +:+ spaces (Z.of_nat shorter))
    = longest + 6
  ∧ (String.length (name plugin) = longest →
     _get_default_formatted_str_line E (Z.of_nat longest) true true plugin
     = "  " +:+ package_name plugin +:+ v).
Proof.
  intros Hkey Hversion Hv longest shorter.
  pose proof (max_name_length_bound group key plugin Hkey) as Hbound.
  fold longest in Hbound.
  assert (Hnames : _get_default_formatted_str_line
                     E (Z.of_nat longest) true false plugin
                   = "  " +:+ name plugin
                     +:+ spaces (Z.of_nat (shorter + 4)) +:+ v).
  { unfold _get_default_formatted_str_line. rewrite Hversion.
    rewrite (truthy_nonempty v Hv). cbn [from_option id].
    by replace (Z.of_nat longest - Z.of_nat (String.length (name plugin)) + 4)%Z
      with (Z.of_nat (shorter + 4)) by (subst shorter; lia). }
  assert (Hpackages : _get_default_formatted_str_line
                        E (Z.of_nat longest) true true plugin
                      = "  " +:+ package_name plugin
                        +:+ spaces (Z.of_nat shorter) +:+ v).
  { unfold _get_default_formatted_str_line. rewrite Hversion.
    rewrite (truthy_nonempty v Hv). cbn [from_option id].
    assert (String.length (package_name plugin)
            = 4 + String.length (name plugin)) as ->
      by (unfold package_name; by rewrite length_append).
    by replace (Z.of_nat longest
                - Z.of_nat (4 + String.length (name plugin)) + 4)%Z
      with (Z.of_nat shorter) by (subst shorter; lia). }
  split; [done|]. split; [done|]. split; [|split].
  - rewrite !length_append, spaces_length. subst shorter. simpl. lia.
  - unfold package_name.
    rewrite !length_append, spaces_length. subst shorter. simpl. lia.
  - intros Hlongest. rewrite Hpackages.
    rewrite spaces_nonpositive by (subst shorter; lia). done.
Qed.

Lemma _get_default_formatted_str_line_columns_witness :
  _get_default_formatted_str_line Sample.externals 8 true false
    {| name := "solidity"; version := None; pip_command := ["uv"; "pip"] |}
  = "  solidity    0.8.2"
  ∧ _get_default_formatted_str_line Sample.externals 8 true true
      {| name := "solidity"; version := None; pip_command := ["uv"; "pip"] |}
    = "  ape-solidity0.8.2".
Proof.
  destruct (_get_default_formatted_str_line_columns Sample.externals
              {| plugin_type := INSTALLED;
                 plugins :=
                   <["ape_solidity" :=
                       {| name := "solidity"; version := None;
                          pip_command := ["uv"; "pip"] |}]> ∅ |}
              "ape_solidity"
              {| name := "solidity"; version := None;
                 pip_command := ["uv"; "pip"] |}
              "0.8.2")
    as (Hnames & _ & _ & _ & Hglued);
    [apply lookup_insert_eq | reflexivity | discriminate |].
  split; [exact Hnames|]. apply Hglued. reflexivity.
Defined.

End columns.

(** ** Entries with the same name *)

Section same_name.
Import PluginMetadata.

Lemma from_package_names_body_entry
    (E : Externals) (include_available : bool)
    (trusted_list : option Iterable)
    (groups : PluginMetadataList.t) (package_id : string) :
  (PluginMetadataList.from_package_names_body
     E include_available trusted_list groups package_id).2
  = ('(name, plugin) ← entry_plugin E package_id ;;;
     Ok (place groups (stored_in E include_available trusted_list plugin)
           name plugin,
         trusted_list_after E trusted_list plugin)).
Proof.
  rewrite from_package_names_body_outcome. unfold entry_plugin. cbn zeta.
  destruct (getitem_first (PyStr.split "==" package_id)) as [key|e]; [|done].
  cbn [rbind]. by destruct (validate_name E _ _ None).
Qed.

Lemma place_lookup
    (groups : PluginMetadataList.t) (group : option PluginType)
    (key : string) (plugin : t) (g : PluginType) (k : string) :
  plugins_of (place groups group key plugin) g !! k
  = if decide (key = k ∧ group = Some g) then Some plugin
    else plugins_of groups g !! k.
Proof.
  case_decide as Hcase.
  - destruct Hcase as [<- ->]. destruct groups, g; apply lookup_insert_eq.
  - destruct groups, group as [[]|], g; simpl; try done;
      apply lookup_insert_ne; intros <-; by apply Hcase.
Qed.

Lemma from_package_names_loop_lookup
    (E : Externals) (include_available : bool) (packages : list string)
    (g : PluginType) (k : string) :
  ∀ trusted_list groups groups' after,
    (PluginMetadataList.from_package_names_loop
       E include_available trusted_list packages groups).2
    = Ok (groups', after) →
    plugins_of groups' g !! k
    = match last (stored_under E include_available trusted_list g k packages)
      with
      | Some plugin => Some plugin
      | None => plugins_of groups g !! k
      end.
Proof.
  induction packages as [|package_id packages IH];
    intros trusted_list groups groups' after.
  { by intros [= <- <-]. }
  rewrite from_package_names_loop_cons, from_package_names_body_entry.
  cbn [stored_under].
  destruct (entry_plugin E package_id) as [[name0 plugin]|e]; [|done].
  cbn [rbind fst snd]. intros Hloop. rewrite (IH _ _ _ _ Hloop), place_lookup.
  case_decide as Hcase; [|done].
  rewrite last_cons. by destruct (last _).
Qed.

(** X18.  Among the entries that store a plugin under the same name in the
    same group, the last one wins: in the groups [from_package_names]
    returns, the plugin under a key of a group is the plugin of the last
    such entry, and the key is absent when there is none.  The group of an
    entry is the one the loop gives it on the trusted list as the entries
    before it left it. *)
Theorem from_package_names_last_wins
    (E : Externals) (include_available : bool)
    (trusted_list : option Iterable) (packages : list string)
    (groups : PluginMetadataList.t) (g : PluginType) (k : string) :
  (PluginMetadataList.from_package_names
     E include_available trusted_list packages).2 = Ok groups →
  plugins_of groups g !! k
  = last (stored_under E include_available trusted_list g k packages).
Proof.
  intros Hrun. rewrite from_package_names_outcome in Hrun.
  destruct (PluginMetadataList.from_package_names_loop _ _ _ _ _).2
    as [[groups0 after]|e] eqn:Hloop; [|done].
  cbn [rbind fst] in Hrun. injection Hrun as ->.
  rewrite (from_package_names_loop_lookup E include_available
             packages g k _ _ _ _ Hloop).
  destruct (last _); [done|]. destruct g; apply lookup_empty.
Qed.

Lemma from_package_names_last_wins_witness :
  ∃ groups,
    (PluginMetadataList.from_package_names Sample.externals true
       (Some (Collection ["foo"]))
       ["foo==0.1"; "foo==0.2"; "bar"]).2 = Ok groups
    ∧ plugins_of groups INSTALLED !! "foo"
      = Some {| name := "foo"; version := Some "0.2";
                pip_command := ["python"; "-m"; "pip"] |}
    ∧ plugins_of groups THIRD_PARTY !! "foo" = None
    ∧ plugins_of groups INSTALLED !! "bar" = None.
Proof.
  eexists. split; [reflexivity|]. split; [|split].
  - rewrite (from_package_names_last_wins Sample.externals true
               (Some (Collection ["foo"]))
               ["foo==0.1"; "foo==0.2"; "bar"] _ INSTALLED "foo" eq_refl).
    reflexivity.
  - rewrite (from_package_names_last_wins Sample.externals true
               (Some (Collection ["foo"]))
               ["foo==0.1"; "foo==0.2"; "bar"] _ THIRD_PARTY "foo" eq_refl).
    reflexivity.
  - rewrite (from_package_names_last_wins Sample.externals true
               (Some (Collection ["foo"]))
               ["foo==0.1"; "foo==0.2"; "bar"] _ INSTALLED "bar" eq_refl).
    reflexivity.
Defined.

End same_name.
